(** * gcloud-go-mcp: the command builder and executor of [internal/executor]

    A shallow embedding of [executor.go] and [output.go].  Go strings are
    byte strings and are modelled by [string] (a list of 8-bit characters);
    the two [map] fields of the builder are finite maps ([gmap]); slices are
    lists.  A builder is mutated in place through a pointer and every
    mutator returns that same pointer, so a mutator is a function from
    builder state to builder state.

    Go leaves the iteration order of [range] over a map unspecified.  The
    two loops of [Build] that range over a map therefore take the order in
    which the entries are visited as an input ([BuildWith]); any
    permutation of the map's entries is a possible order ([Builds]). *)

From Stdlib Require Import Ascii NArith Lia.
From stdpp Require Import base option list gmap fin_maps strings.

Set Default Proof Using "Type".

(** ** Configuration ([internal/config]) *)

Record Config := mkConfig {
  Project : string;
  Region : string;
  Zone : string;
  GCloudPath : string;
  CommandTimeout : N   (* time.Duration, in nanoseconds *)
}.

(** ** The executor and its builder ([executor.go]) *)

Record Executor := mkExecutor { config : Config }.

Definition New (cfg : Config) : Executor := mkExecutor cfg.

Record CommandBuilder := mkBuilder {
  executor : Executor;
  components : list string;
  flags : gmap string string;
  arrayFlags : gmap string (list string);
  boolFlags : list string;
  project : string;
  region : string;
  zone : string;
  format : string
}.

(** [e.Command(components...)]: both maps are allocated empty, [boolFlags]
    is left nil, the three scope fields are read from the configuration and
    the format starts as ["json"]. *)
Definition Command (e : Executor) (comps : list string) : CommandBuilder :=
  {| executor := e;
     components := comps;
     flags := ∅;
     arrayFlags := ∅;
     boolFlags := [];
     project := Project (config e);
     region := Region (config e);
     zone := Zone (config e);
     format := "json" |}.

(** Field assignments [b.f = v]. *)
Definition set_flags (m : gmap string string) (b : CommandBuilder) :=
  mkBuilder (executor b) (components b) m (arrayFlags b) (boolFlags b)
            (project b) (region b) (zone b) (format b).
Definition set_arrayFlags (m : gmap string (list string)) (b : CommandBuilder) :=
  mkBuilder (executor b) (components b) (flags b) m (boolFlags b)
            (project b) (region b) (zone b) (format b).
Definition set_boolFlags (l : list string) (b : CommandBuilder) :=
  mkBuilder (executor b) (components b) (flags b) (arrayFlags b) l
            (project b) (region b) (zone b) (format b).
Definition set_project (s : string) (b : CommandBuilder) :=
  mkBuilder (executor b) (components b) (flags b) (arrayFlags b) (boolFlags b)
            s (region b) (zone b) (format b).
Definition set_region (s : string) (b : CommandBuilder) :=
  mkBuilder (executor b) (components b) (flags b) (arrayFlags b) (boolFlags b)
            (project b) s (zone b) (format b).
Definition set_zone (s : string) (b : CommandBuilder) :=
  mkBuilder (executor b) (components b) (flags b) (arrayFlags b) (boolFlags b)
            (project b) (region b) s (format b).
Definition set_format (s : string) (b : CommandBuilder) :=
  mkBuilder (executor b) (components b) (flags b) (arrayFlags b) (boolFlags b)
            (project b) (region b) (zone b) s.

(** [s != ""] *)
Definition nonempty (s : string) : bool :=
  match s with EmptyString => false | String _ _ => true end.

Definition WithProject (p : string) (b : CommandBuilder) : CommandBuilder :=
  if nonempty p then set_project p b else b.

Definition WithRegion (r : string) (b : CommandBuilder) : CommandBuilder :=
  if nonempty r then set_region r b else b.

Definition WithZone (z : string) (b : CommandBuilder) : CommandBuilder :=
  if nonempty z then set_zone z b else b.

Definition WithFlag (name value : string) (b : CommandBuilder) : CommandBuilder :=
  if nonempty value then set_flags (<[name := value]> (flags b)) b else b.

(** [b.arrayFlags[name]] reads nil for an absent key; [append] then starts a
    fresh slice. *)
Definition WithArrayFlag (name value : string) (b : CommandBuilder) : CommandBuilder :=
  if nonempty value
  then set_arrayFlags
         (<[name := default [] (arrayFlags b !! name) ++ [value]]> (arrayFlags b)) b
  else b.

Definition WithBoolFlag (name : string) (b : CommandBuilder) : CommandBuilder :=
  set_boolFlags (boolFlags b ++ [name]) b.

Definition WithFormat (f : string) (b : CommandBuilder) : CommandBuilder :=
  set_format f b.

Definition WithTextFormat (b : CommandBuilder) : CommandBuilder :=
  set_format "" b.

Definition GetProject (b : CommandBuilder) : string := project b.
Definition GetRegion (b : CommandBuilder) : string := region b.
Definition GetZone (b : CommandBuilder) : string := zone b.

(** *** Build *)

(** [fmt.Sprintf("--%s=%s", name, value)] and [fmt.Sprintf("--%s", flag)] *)
Definition sprintf_flag (name value : string) : string :=
  "--" +:+ name +:+ "=" +:+ value.
Definition sprintf_bool (flag : string) : string := "--" +:+ flag.

(** The body of [Build], statement by statement, on the accumulator [args].
    [fl] and [al] are the entries of [b.flags] and [b.arrayFlags] in the
    order in which the two [range] loops visit them. *)
Definition BuildWith (fl : list (string * string))
    (al : list (string * list string)) (b : CommandBuilder) : list string :=
  let args := [] in
  let args := args ++ components b in
  let args :=
    foldl (λ args nv, args ++ [sprintf_flag nv.1 nv.2]) args fl in
  let args :=
    foldl (λ args nvs,
             foldl (λ args value, args ++ [sprintf_flag nvs.1 value]) args nvs.2)
          args al in
  let args := foldl (λ args flag, args ++ [sprintf_bool flag]) args (boolFlags b) in
  let args :=
    if nonempty (project b) then args ++ ["--project=" +:+ project b] else args in
  let args :=
    if nonempty (format b) then args ++ ["--format=" +:+ format b] else args in
  args.

(** One run of [Build]: the maps are visited in some order. *)
Definition Builds (b : CommandBuilder) (args : list string) : Prop :=
  ∃ fl al,
    fl ≡ₚ map_to_list (flags b) ∧
    al ≡ₚ map_to_list (arrayFlags b) ∧
    args = BuildWith fl al b.

(** The run of [Build] that visits the maps in [map_to_list] order. *)
Definition Build (b : CommandBuilder) : list string :=
  BuildWith (map_to_list (flags b)) (map_to_list (arrayFlags b)) b.

(** *** Sequences of mutator calls

    The public interface of a builder: a chain of [With...] calls on the
    builder returned by [Command]. *)
Inductive Call :=
  | CallWithProject (p : string)
  | CallWithRegion (r : string)
  | CallWithZone (z : string)
  | CallWithFlag (name value : string)
  | CallWithArrayFlag (name value : string)
  | CallWithBoolFlag (name : string)
  | CallWithFormat (f : string)
  | CallWithTextFormat.

Definition apply_call (c : Call) (b : CommandBuilder) : CommandBuilder :=
  match c with
  | CallWithProject p => WithProject p b
  | CallWithRegion r => WithRegion r b
  | CallWithZone z => WithZone z b
  | CallWithFlag n v => WithFlag n v b
  | CallWithArrayFlag n v => WithArrayFlag n v b
  | CallWithBoolFlag n => WithBoolFlag n b
  | CallWithFormat f => WithFormat f b
  | CallWithTextFormat => WithTextFormat b
  end.

Definition apply_calls (cs : list Call) (b : CommandBuilder) : CommandBuilder :=
  foldl (λ b c, apply_call c b) b cs.

(** *** Execution

    [exec.CommandContext] and [cmd.Run] are the boundary with the operating
    system.  A command is the executable path, the argument list and the
    timeout of the derived context; running it yields the two captured
    buffers and the error of [cmd.Run], if any.  The response of the system
    is the variable [run] below; every process that is started is appended
    to a log, which is threaded through as state. *)

Record Cmd := mkCmd {
  cmd_Path : string;
  cmd_Args : list string;
  cmd_Timeout : N
}.

(** The error of [cmd.Run]: an [*exec.ExitError] carrying the exit code, or
    any other error (the executable was not found, ...). *)
Inductive RunError :=
  | ExitError (code : Z) (text : string)
  | OtherError (text : string).

Definition RunError_Error (e : RunError) : string :=
  match e with ExitError _ t => t | OtherError t => t end.

Record Output := mkOutput {
  out_stdout : string;
  out_stderr : string;
  out_err : option RunError
}.

Record Result := mkResult {
  JSON : option string;    (* json.RawMessage; [None] is nil *)
  Stdout : string;
  Stderr : string;
  ExitCode : Z
}.

(** A Go [error], observed through its [Error()] method. *)
Inductive error := errorString (msg : string).
Definition Error (e : error) : string := match e with errorString m => m end.

(** **** [strings.TrimSpace]

    The white space of [unicode.IsSpace]: the six ASCII characters of the
    table [asciiSpace], and U+0085, U+00A0, U+1680, U+2000..U+200A, U+2028,
    U+2029, U+202F, U+205F, U+3000 in their UTF-8 encoding.  Leading runes
    are removed first, then trailing ones; a byte sequence that is not one
    of these encodings decodes to a rune that is not white space and stops
    the trimming. *)
Definition byte (c : ascii) : N := N_of_ascii c.

Definition asciiSpace (c : ascii) : bool :=
  let n := byte c in
  (n =? 9)%N || (n =? 10)%N || (n =? 11)%N || (n =? 12)%N || (n =? 13)%N
  || (n =? 32)%N.

Definition space2 (c1 c2 : ascii) : bool :=
  (byte c1 =? 194)%N && ((byte c2 =? 133)%N || (byte c2 =? 160)%N).

Definition space3 (c1 c2 c3 : ascii) : bool :=
  let '(a, b, c) := (byte c1, byte c2, byte c3) in
  (a =? 225)%N && (b =? 154)%N && (c =? 128)%N
  || (a =? 226)%N && (b =? 128)%N
     && ((128 <=? c)%N && (c <=? 138)%N || (c =? 168)%N || (c =? 169)%N
         || (c =? 175)%N)
  || (a =? 226)%N && (b =? 129)%N && (c =? 159)%N
  || (a =? 227)%N && (b =? 128)%N && (c =? 128)%N.

(** Removal of white-space runes at the front of a string.  With [fwd] the
    string is read left to right; without, it is the mirror image of the
    string whose end is trimmed, and the bytes of a rune arrive last byte
    first. *)
Fixpoint trim_front (fwd : bool) (s : string) : string :=
  match s with
  | EmptyString => s
  | String c1 s1 =>
      if asciiSpace c1 then trim_front fwd s1 else
      match s1 with
      | EmptyString => s
      | String c2 s2 =>
          if (if fwd then space2 c1 c2 else space2 c2 c1) then trim_front fwd s2
          else
            match s2 with
            | EmptyString => s
            | String c3 s3 =>
                if (if fwd then space3 c1 c2 c3 else space3 c3 c2 c1)
                then trim_front fwd s3 else s
            end
      end
  end.

Definition TrimSpace (s : string) : string :=
  String.rev (trim_front false (String.rev (trim_front true s))).

Section Execution.

(** What the operating system answers when a command is run. *)
Variable run : Cmd → Output.

(** Computations that start processes: the log of started commands is
    the state. *)
Definition Proc (A : Type) : Type := list Cmd → A * list Cmd.

Definition ret {A} (a : A) : Proc A := λ log, (a, log).
Definition bind {A B} (m : Proc A) (k : A → Proc B) : Proc B :=
  λ log, let '(a, log') := m log in k a log'.

(** [cmd.Run()] *)
Definition cmd_Run (cmd : Cmd) : Proc Output :=
  λ log, (run cmd, log ++ [cmd]).

(** [Execute]; [fl] and [al] are the visiting orders of the two maps in
    the call of [Build]. *)
Definition Execute (fl : list (string * string))
    (al : list (string * list string)) (b : CommandBuilder)
    : Proc (Result * option error) :=
  let args := BuildWith fl al b in
  let cmd := mkCmd (GCloudPath (config (executor b))) args
                   (CommandTimeout (config (executor b))) in
  bind (cmd_Run cmd) (λ out,
    let result := mkResult None (out_stdout out) (out_stderr out) 0 in
    match out_err out with
    | Some err =>
        let result :=
          match err with
          | ExitError code _ =>
              mkResult (JSON result) (Stdout result) (Stderr result) code
          | OtherError _ => result
          end in
        ret (result,
             Some (errorString ("gcloud command failed: " +:+ RunError_Error err
                                +:+ String "010" "stderr: " +:+ out_stderr out)))
    | None =>
        let result :=
          if String.eqb (format b) "json" && nonempty (out_stdout out) then
            let trimmed := TrimSpace (out_stdout out) in
            if nonempty trimmed
            then mkResult (Some trimmed) (Stdout result) (Stderr result)
                          (ExitCode result)
            else result
          else result in
        ret (result, None)
    end).



End Execution.

(** ** Result accessors ([output.go]) *)

Definition IsEmpty (r : Result) : bool :=
  match JSON r with None => negb (nonempty (Stdout r)) | Some _ => false end.

(** ** Error responses ([output.go]) and their JSON form

    [FormatError] serialises an [ErrorResponse] with [json.MarshalIndent];
    the tests read the text back with [json.Unmarshal].  Both belong to
    Go's [encoding/json]; they are modelled here for a struct of string
    fields, following the package: [appendString] for the writer,
    [unquote] and [getu4] for the reader, and [utf8.DecodeRune] and
    [utf8.EncodeRune] below them.  The package documents that string
    values encode as JSON strings coerced to valid UTF-8, replacing
    invalid bytes with the Unicode replacement rune. *)

Record ErrorResponse := mkErrorResponse {
  er_Error : string;     (* `json:"error"` *)
  er_Command : string;   (* `json:"command,omitempty"` *)
  er_Stderr : string     (* `json:"stderr,omitempty"` *)
}.

(** *** UTF-8 *)

Definition in_range (lo hi : N) (c : ascii) : bool :=
  (lo <=? byte c)%N && (byte c <=? hi)%N.

(** A continuation byte. *)
Definition cont (c : ascii) : bool := in_range 128 191 c.

(** The well-formed encodings of two, three and four bytes, with the
    ranges that [utf8.DecodeRune] accepts for the second byte. *)
Definition valid2 (c1 c2 : ascii) : bool := in_range 194 223 c1 && cont c2.

Definition valid3 (c1 c2 c3 : ascii) : bool :=
  ((byte c1 =? 224)%N && in_range 160 191 c2
   || in_range 225 236 c1 && cont c2
   || (byte c1 =? 237)%N && in_range 128 159 c2
   || in_range 238 239 c1 && cont c2)
  && cont c3.

Definition valid4 (c1 c2 c3 c4 : ascii) : bool :=
  ((byte c1 =? 240)%N && in_range 144 191 c2
   || in_range 241 243 c1 && cont c2
   || (byte c1 =? 244)%N && in_range 128 143 c2)
  && cont c3 && cont c4.

(** [utf8.DecodeRuneInString] at a byte [c1] that is not below
    [utf8.RuneSelf], followed by [s1]: when the text starts with the
    well-formed encoding [enc] of a rune, the answer is [rune enc rest],
    where [rest] is the text after the rune; otherwise the rune is
    [RuneError] of width 1, and the answer is [bad]. *)
Definition DecodeRune {A} (c1 : ascii) (s1 : string)
    (rune : string → string → A) (bad : A) : A :=
  match s1 with
  | EmptyString => bad
  | String c2 s2 =>
      if valid2 c1 c2 then rune (String c1 (String c2 "")) s2 else
      match s2 with
      | EmptyString => bad
      | String c3 s3 =>
          if valid3 c1 c2 c3 then rune (String c1 (String c2 (String c3 ""))) s3 else
          match s3 with
          | EmptyString => bad
          | String c4 s4 =>
              if valid4 c1 c2 c3 c4
              then rune (String c1 (String c2 (String c3 (String c4 "")))) s4
              else bad
          end
      end
  end.
Global Arguments DecodeRune : simpl never.

(** [utf8.ValidString] *)
Fixpoint ValidString (s : string) : bool :=
  match s with
  | EmptyString => true
  | String c1 s1 =>
      if (byte c1 <? 128)%N then ValidString s1
      else DecodeRune c1 s1 (λ _ rest, ValidString rest) false
  end.

Definition chr (n : N) : ascii := ascii_of_N n.

(** [utf8.EncodeRune]; a surrogate or a value above U+10FFFF is written as
    U+FFFD. *)
Definition RuneError : string := String (chr 239) (String (chr 191) (String (chr 189) "")).

Definition EncodeRune (r : N) : string :=
  if (r <=? 127)%N then String (chr r) ""
  else if (r <=? 2047)%N then
    String (chr (N.lor 192 (N.shiftr r 6)))
      (String (chr (N.lor 128 (N.land r 63))) "")
  else if (55296 <=? r)%N && (r <=? 57343)%N || (1114111 <? r)%N then RuneError
  else if (r <=? 65535)%N then
    String (chr (N.lor 224 (N.shiftr r 12)))
      (String (chr (N.lor 128 (N.land (N.shiftr r 6) 63)))
        (String (chr (N.lor 128 (N.land r 63))) ""))
  else
    String (chr (N.lor 240 (N.shiftr r 18)))
      (String (chr (N.lor 128 (N.land (N.shiftr r 12) 63)))
        (String (chr (N.lor 128 (N.land (N.shiftr r 6) 63)))
          (String (chr (N.lor 128 (N.land r 63))) ""))).

(** *** Writing a string: [appendString] with [escapeHTML] set *)

Definition hex (n : N) : ascii :=
  match n with
  | 0 => "0" | 1 => "1" | 2 => "2" | 3 => "3" | 4 => "4" | 5 => "5"
  | 6 => "6" | 7 => "7" | 8 => "8" | 9 => "9" | 10 => "a" | 11 => "b"
  | 12 => "c" | 13 => "d" | 14 => "e" | _ => "f"
  end%N%char.

(** The table [htmlSafeSet]: the characters from the space to DEL, without
    the quote, the backslash, [<], [>] and [&]. *)
Definition htmlSafeSet (c : ascii) : bool :=
  let n := byte c in
  (32 <=? n)%N && (n <? 128)%N
  && negb ((n =? 34) || (n =? 92) || (n =? 60) || (n =? 62) || (n =? 38))%N.

(** One byte below [utf8.RuneSelf].  (Releases of Go before 1.22 write
    backspace and form feed as [\u0008] and [\u000c]; both forms read back
    as the same byte.) *)
Definition escape_byte (c : ascii) : string :=
  let n := byte c in
  if htmlSafeSet c then String c ""
  else if (n =? 92)%N || (n =? 34)%N then String "\" (String c "")
  else if (n =? 8)%N then "\b"
  else if (n =? 12)%N then "\f"
  else if (n =? 10)%N then "\n"
  else if (n =? 13)%N then "\r"
  else if (n =? 9)%N then "\t"
  else "\u00" +:+ String (hex (N.shiftr n 4)) (String (hex (N.land n 15)) "").

(** A well-formed rune: U+2028 and U+2029 are escaped, the others are
    copied. *)
Definition LineSeparator : string :=
  String (chr 226) (String (chr 128) (String (chr 168) "")).
Definition ParagraphSeparator : string :=
  String (chr 226) (String (chr 128) (String (chr 169) "")).

Definition escape_rune (enc : string) : string :=
  if String.eqb enc LineSeparator then "\u2028"
  else if String.eqb enc ParagraphSeparator then "\u2029"
  else enc.

(** The loop of [appendString]: a byte that starts no well-formed rune is
    written as [\ufffd] and the loop goes on at the next byte. *)
Fixpoint escape (s : string) : string :=
  match s with
  | EmptyString => ""
  | String c1 s1 =>
      if (byte c1 <? 128)%N then escape_byte c1 +:+ escape s1
      else DecodeRune c1 s1 (λ enc rest, escape_rune enc +:+ escape rest)
                      ("\ufffd" +:+ escape s1)
  end.

Definition dquote : ascii := "034".

Definition appendString (s : string) : string :=
  String dquote (escape s +:+ String dquote "").

(** *** [json.MarshalIndent(resp, "", "  ")] for an [ErrorResponse]

    The members in field order, a field tagged [omitempty] being left out
    when its string is empty; one member per line, indented by two
    spaces, a colon and a space between name and value. *)
Definition newline : string := String "010" "".

Definition fields (resp : ErrorResponse) : list (string * string) :=
  [("error", er_Error resp)]
  ++ (if nonempty (er_Command resp) then [("command", er_Command resp)] else [])
  ++ (if nonempty (er_Stderr resp) then [("stderr", er_Stderr resp)] else []).

Fixpoint indent_members (ms : list (string * string)) : string :=
  match ms with
  | [] => ""
  | [(k, v)] => appendString k +:+ ": " +:+ appendString v
  | (k, v) :: ms =>
      appendString k +:+ ": " +:+ appendString v +:+ "," +:+ newline +:+ "  "
      +:+ indent_members ms
  end.

Definition MarshalIndent (resp : ErrorResponse) : string :=
  "{" +:+ newline +:+ "  " +:+ indent_members (fields resp) +:+ newline +:+ "}".

Definition FormatError (err : error) (command stderr : string) : string :=
  let resp := mkErrorResponse (Error err) command stderr in
  MarshalIndent resp.

(** *** Reading a string: [unquote] *)

Definition hexval (c : ascii) : option N :=
  let n := byte c in
  if (48 <=? n)%N && (n <=? 57)%N then Some (n - 48)%N
  else if (97 <=? n)%N && (n <=? 102)%N then Some (n - 87)%N
  else if (65 <=? n)%N && (n <=? 70)%N then Some (n - 55)%N
  else None.

(** [getu4], on the four characters that follow [\u]. *)
Definition getu4 (h1 h2 h3 h4 : ascii) : option N :=
  match hexval h1, hexval h2, hexval h3, hexval h4 with
  | Some a, Some b, Some c, Some d => Some (((a * 16 + b) * 16 + c) * 16 + d)%N
  | _, _, _, _ => None
  end.

Definition IsSurrogate (r : N) : bool := (55296 <=? r)%N && (r <? 57344)%N.

(** [utf16.DecodeRune]: the rune of a surrogate pair, if it is one. *)
Definition utf16_DecodeRune (r1 r2 : N) : option N :=
  if (55296 <=? r1)%N && (r1 <? 56320)%N && (56320 <=? r2)%N && (r2 <? 57344)%N
  then Some ((r1 - 55296) * 1024 + (r2 - 56320) + 65536)%N
  else None.

(** The characters that may follow a backslash, [u] apart. *)
Definition unescape (e : ascii) : option ascii :=
  let n := byte e in
  if (n =? 34)%N || (n =? 92)%N || (n =? 47)%N then Some e
  else if (n =? 98)%N then Some (chr 8)
  else if (n =? 102)%N then Some (chr 12)
  else if (n =? 110)%N then Some (chr 10)
  else if (n =? 114)%N then Some (chr 13)
  else if (n =? 116)%N then Some (chr 9)
  else None.

(** The result of reading up to the closing quote: the string read and the
    text after the quote. *)
Definition emit (out : string) (r : option (string * string)) : option (string * string) :=
  match r with Some (t, rest) => Some (out +:+ t, rest) | None => None end.

(** What follows a backslash; [unquote] reads the text after the escape.
    A surrogate that is not the first half of a pair written as two
    escapes is read as U+FFFD. *)
Definition unquote_escape (unquote : string → option (string * string))
    (s1 : string) : option (string * string) :=
  match s1 with
  | EmptyString => None
  | String e s2 =>
      match unescape e with
      | Some d => emit (String d "") (unquote s2)
      | None =>
          if negb (byte e =? 117)%N then None else
          match s2 with
          | String h1 (String h2 (String h3 (String h4 s6))) =>
              match getu4 h1 h2 h3 h4 with
              | None => None
              | Some rr =>
                  if negb (IsSurrogate rr) then emit (EncodeRune rr) (unquote s6) else
                  match s6 with
                  | String b (String u (String g1 (String g2
                      (String g3 (String g4 s12))))) =>
                      match
                        (if (byte b =? 92)%N && (byte u =? 117)%N
                         then getu4 g1 g2 g3 g4 else None)
                        ≫= utf16_DecodeRune rr
                      with
                      | Some dec => emit (EncodeRune dec) (unquote s12)
                      | None => emit RuneError (unquote s6)
                      end
                  | _ => emit RuneError (unquote s6)
                  end
              end
          | _ => None
          end
      end
  end.
Global Arguments unquote_escape : simpl never.

(** [s] is the text after the opening quote.  Control characters and
    escapes that the scanner refuses end the reading with an error; a byte
    that starts no well-formed rune is read as U+FFFD. *)
Fixpoint unquote (s : string) : option (string * string) :=
  match s with
  | EmptyString => None
  | String c1 s1 =>
      let n := byte c1 in
      if (n =? 34)%N then Some ("", s1)
      else if (n =? 92)%N then unquote_escape unquote s1
      else if (n <? 32)%N then None
      else if (n <? 128)%N then emit (String c1 "") (unquote s1)
      else DecodeRune c1 s1 (λ enc rest, emit enc (unquote rest))
                      (emit RuneError (unquote s1))
  end.

(** *** [json.Unmarshal] into an [ErrorResponse]

    The reader covers the objects whose members are strings and whose
    names are among the three tags of the struct: on these it returns what
    [json.Unmarshal] stores in a zero [ErrorResponse]; every other text,
    well-formed or not, is answered by [None]. *)
Definition is_space (c : ascii) : bool :=
  let n := byte c in (n =? 32)%N || (n =? 9)%N || (n =? 13)%N || (n =? 10)%N.

Fixpoint skip_space (s : string) : string :=
  match s with
  | String c s' => if is_space c then skip_space s' else s
  | EmptyString => s
  end.

(** A string literal at the head of [s]. *)
Definition read_string (s : string) : option (string * string) :=
  match s with
  | String c s' => if (byte c =? 34)%N then unquote s' else None
  | EmptyString => None
  end.

(** The members of an object, from the first name to the closing brace;
    [fuel] bounds the number of members. *)
Fixpoint read_members (fuel : nat) (s : string)
    : option (list (string * string) * string) :=
  match fuel with
  | O => None
  | S fuel =>
      match read_string s with
      | None => None
      | Some (k, s) =>
          match skip_space s with
          | EmptyString => None
          | String c s =>
              if negb (byte c =? 58)%N then None else
              match read_string (skip_space s) with
              | None => None
              | Some (v, s) =>
                  match skip_space s with
                  | EmptyString => None
                  | String d s =>
                      if (byte d =? 44)%N then
                        match read_members fuel (skip_space s) with
                        | Some (ms, s) => Some ((k, v) :: ms, s)
                        | None => None
                        end
                      else if (byte d =? 125)%N then Some ([(k, v)], s)
                      else None
                  end
              end
          end
      end
  end.

(** A whole text: one object and nothing after it. *)
Definition read_object (text : string) : option (list (string * string)) :=
  match skip_space text with
  | EmptyString => None
  | String c s =>
      if negb (byte c =? 123)%N then None else
      match skip_space s with
      | EmptyString => None
      | String d s' =>
          let r := if (byte d =? 125)%N then Some ([], s')
                   else read_members (String.length s) (String d s') in
          match r with
          | Some (ms, rest) =>
              match skip_space rest with EmptyString => Some ms | _ => None end
          | None => None
          end
      end
  end.

(** Storing the members, in order, into the struct. *)
Definition store_member (resp : option ErrorResponse) (m : string * string)
    : option ErrorResponse :=
  match resp with
  | None => None
  | Some r =>
      if String.eqb m.1 "error" then Some (mkErrorResponse m.2 (er_Command r) (er_Stderr r))
      else if String.eqb m.1 "command" then Some (mkErrorResponse (er_Error r) m.2 (er_Stderr r))
      else if String.eqb m.1 "stderr" then Some (mkErrorResponse (er_Error r) (er_Command r) m.2)
      else None
  end.

Definition Unmarshal (text : string) : option ErrorResponse :=
  match read_object text with
  | Some ms => foldl store_member (Some (mkErrorResponse "" "" "")) ms
  | None => None
  end.

(** ** The other accessors of a result ([output.go])

    [json.Indent] and [json.Unmarshal] are functions of Go's library.
    [ToJSONString] and [ParseJSON] only pass the payload on to them, so the
    two are taken as they answer: the indented text, or nothing when
    [json.Indent] reports an error; the error of [json.Unmarshal], if
    any. *)
Section ResultAccessors.

Variable Indent : string → option string.
Variable unmarshal : string → option error.

Definition ToJSONString (r : Result) : string :=
  match JSON r with
  | Some j =>
      match Indent j with
      | Some pretty => pretty
      | None => j
      end
  | None => Stdout r
  end.

Definition ParseJSON (r : Result) : option error :=
  match JSON r with
  | None => Some (errorString "no JSON output available")
  | Some j => unmarshal j
  end.

End ResultAccessors.

(** ** Reading the environment ([internal/config])

    [Getenv] is [os.Getenv]: the value of a variable, the empty string
    when it is not set.  A [time.Duration] is a signed number of
    nanoseconds; [ParseDuration] is [time.ParseDuration], which answers
    nothing when it reports an error. *)
Section Environment.

Variable Getenv : string → string.
Variable ParseDuration : string → option Z.

Definition getEnv (key defaultVal : string) : string :=
  let val := Getenv key in
  if nonempty val then val else defaultVal.

Definition getDurationEnv (key : string) (defaultVal : Z) : Z :=
  let val := Getenv key in
  if nonempty val then
    match ParseDuration val with
    | Some d => d
    | None => defaultVal
    end
  else defaultVal.

End Environment.

(** ** The base of the services ([internal/services])

    The arguments of a tool call are a [map[string]any] that
    [json.Unmarshal] filled: a value is nil, a bool, a float64, a string,
    a slice of values or a map of values.  A float64 is kept as its 64
    bits; no arithmetic is done on it here. *)
Inductive float64 := Float64 (bits : N).

#[warnings="-register-all"] Inductive any :=
  | AnyNil
  | AnyBool (b : bool)
  | AnyFloat64 (f : float64)
  | AnyString (s : string)
  | AnySlice (l : list any)
  | AnyMap (m : gmap string any).

Record BaseService := mkBaseService {
  bs_Executor : Executor;
  bs_Config : Config
}.

Definition NewBaseService (cfg : Config) : BaseService :=
  mkBaseService (New cfg) cfg.

(** An [mcp.CallToolResult]; its content here is always text. *)
Record CallToolResult := mkCallToolResult {
  IsError : bool;
  Content : list string
}.

Definition ToolResult (text : string) : CallToolResult :=
  mkCallToolResult false [text].

Definition ToolError (err : error) : CallToolResult :=
  mkCallToolResult true [Error err].

(** A Go result [(string, error)]: the string, or the error. *)
Definition GetRequiredString (args : gmap string any) (key : string)
    : string + error :=
  match args !! key with
  | None => inr (errorString ("missing required parameter: " +:+ key))
  | Some val =>
      match val with
      | AnyString str =>
          if nonempty str then inl str
          else inr (errorString ("parameter " +:+ key +:+ " cannot be empty"))
      | _ => inr (errorString ("parameter " +:+ key +:+ " must be a string"))
      end
  end.

Definition GetOptionalString (args : gmap string any) (key defaultVal : string)
    : string :=
  match args !! key with
  | None => defaultVal
  | Some val =>
      match val with
      | AnyString str => str
      | _ => defaultVal
      end
  end.

Definition GetOptionalBool (args : gmap string any) (key : string)
    (defaultVal : bool) : bool :=
  match args !! key with
  | None => defaultVal
  | Some val =>
      match val with
      | AnyBool b => b
      | _ => defaultVal
      end
  end.

(** A nil slice is [None]; [make] gives a slice that is not nil, also when
    it stays empty. *)
Definition GetOptionalStringArray (args : gmap string any) (key : string)
    : option (list string) :=
  match args !! key with
  | None => None
  | Some val =>
      match val with
      | AnySlice arr =>
          let result := [] in
          Some (foldl (λ result v,
                         match v with
                         | AnyString s => result ++ [s]
                         | _ => result
                         end) result arr)
      | _ => None
      end
  end.

(** [len] of a slice that may be nil. *)
Definition len {A} (l : option (list A)) : nat :=
  match l with Some l => length l | None => 0 end.

Section StringMap.

(** [fmt.Sprintf("%v", v)] *)
Variable Sprint : any → string.

(** [ml] is the order in which [range] visits the entries of the map that
    is found under [key]. *)
Definition GetOptionalStringMap (ml : list (string * any))
    (args : gmap string any) (key : string) : option (gmap string string) :=
  match args !! key with
  | None => None
  | Some val =>
      match val with
      | AnyMap m =>
          let result : gmap string string := ∅ in
          Some (foldl (λ result kv,
                         match kv.2 with
                         | AnyString s => <[kv.1 := s]> result
                         | v => <[kv.1 := Sprint v]> result
                         end) result ml)
      | _ => None
      end
  end.

End StringMap.

(** ** Tool handlers

    A handler is the function that [RegisterTools] gives to
    [server.AddTool]; it is modelled from the map [args] that [parseArgs]
    returns.  Every handler returns a nil error beside its result. *)
Section Handlers.

Variable run : Cmd → Output.
Variable Indent : string → option string.

(** What every handler does with the outcome of an execution whose result
    it shows as JSON. *)
Definition show_json (r : Result * option error) : CallToolResult :=
  match r.2 with
  | Some err => ToolError err
  | None => ToolResult (ToJSONString Indent r.1)
  end.


End Handlers.

(** ** Handlers whose command holds flags

    What [Build] returns depends on the entries that the two maps hold
    when it is called and on the order in which the runtime visits them.
    [Range] is that order, as a function of the map that a [range] loop
    visits: [BuildBy], [ExecuteBy] and [ExecuteWithZoneBy] are [Build],
    [Execute] and [ExecuteWithZone] with the maps of the builder visited
    as the runtime says. *)
Record Range := mkRange {
  range_flags : gmap string string → list (string * string);
  range_arrayFlags : gmap string (list string) → list (string * list string)
}.

Section FlagHandlers.

Variable run : Cmd → Output.
Variable Indent : string → option string.
Variable rg : Range.

Definition BuildBy (b : CommandBuilder) : list string :=
  BuildWith (range_flags rg (flags b)) (range_arrayFlags rg (arrayFlags b)) b.

Definition ExecuteBy (b : CommandBuilder) : Proc (Result * option error) :=
  Execute run (range_flags rg (flags b)) (range_arrayFlags rg (arrayFlags b)) b.

Definition ExecuteWithZoneBy (b : CommandBuilder)
    : Proc (CommandBuilder * (Result * option error)) :=
  let b := if nonempty (zone b) then WithFlag "zone" (zone b) b else b in
  bind (ExecuteBy b) (λ r, ret (b, r)).

(** [gcp_compute_instances_describe] ([services/compute]) *)
Definition compute_instances_describe (base : BaseService)
    (args : gmap string any) : Proc (CallToolResult * option error) :=
  match GetRequiredString args "instance" with
  | inr err => ret (ToolError err, None)
  | inl instance =>
      match GetRequiredString args "zone" with
      | inr err => ret (ToolError err, None)
      | inl zone =>
          let b := Command (bs_Executor base)
                           ["compute"; "instances"; "describe"; instance] in
          let b := WithZone zone b in
          let b := WithProject (GetOptionalString args "project" "") b in
          bind (ExecuteWithZoneBy b) (λ br, ret (show_json Indent br.2, None))
      end
  end.

(** [gcp_compute_instances_delete] ([services/compute]) *)
Definition compute_instances_delete (base : BaseService)
    (args : gmap string any) : Proc (CallToolResult * option error) :=
  match GetRequiredString args "instance" with
  | inr err => ret (ToolError err, None)
  | inl instance =>
      match GetRequiredString args "zone" with
      | inr err => ret (ToolError err, None)
      | inl zone =>
          let b := Command (bs_Executor base)
                           ["compute"; "instances"; "delete"; instance] in
          let b := WithZone zone b in
          let b := WithProject (GetOptionalString args "project" "") b in
          let b := WithBoolFlag "quiet" b in
          bind (ExecuteWithZoneBy b) (λ br,
            match br.2.2 with
            | Some err => ret (ToolError err, None)
            | None => ret (ToolResult "Instance deleted successfully", None)
            end)
      end
  end.

(** [gcp_gke_clusters_list] ([services/gke]) *)
Definition gke_clusters_list (base : BaseService)
    (args : gmap string any) : Proc (CallToolResult * option error) :=
  let cmd := Command (bs_Executor base) ["container"; "clusters"; "list"] in
  let cmd := WithProject (GetOptionalString args "project" "") cmd in
  let region := GetOptionalString args "region" "" in
  let cmd := if nonempty region then WithFlag "region" region cmd else cmd in
  bind (ExecuteBy cmd) (λ r, ret (show_json Indent r, None)).

(** [gcp_firestore_export] ([services/firestore]) *)
Definition firestore_export (base : BaseService)
    (args : gmap string any) : Proc (CallToolResult * option error) :=
  match GetRequiredString args "output_uri_prefix" with
  | inr err => ret (ToolError err, None)
  | inl outputURI =>
      let cmd := Command (bs_Executor base) ["firestore"; "export"; outputURI] in
      let cmd := WithFlag "database"
                          (GetOptionalString args "database" "(default)") cmd in
      let cmd := WithProject (GetOptionalString args "project" "") cmd in
      let collectionIDs := GetOptionalStringArray args "collection_ids" in
      let cmd :=
        if decide (0 < len collectionIDs) then
          foldl (λ cmd id, WithArrayFlag "collection-ids" id cmd) cmd
                (default [] collectionIDs)
        else cmd in
      bind (ExecuteBy cmd) (λ r, ret (show_json Indent r, None))
  end.

End FlagHandlers.

(** ** Vocabulary of the properties *)

(** The token of the project step and of the format step of [Build]. *)
Definition project_args (b : CommandBuilder) : list string :=
  if nonempty (project b) then ["--project=" +:+ project b] else [].
Definition format_args (b : CommandBuilder) : list string :=
  if nonempty (format b) then ["--format=" +:+ format b] else [].

(** [p] is a prefix of [s]. *)
Fixpoint has_prefix (p s : string) : bool :=
  match p, s with
  | EmptyString, _ => true
  | String a p, String b s => Ascii.eqb a b && has_prefix p s
  | String _ _, EmptyString => false
  end.

(** Tokens that begin with [--format=], with [--region=]. *)
Definition is_format_token (t : string) : bool := has_prefix "--format=" t.

(** The flag names [k] for which [--k=value] begins with [--key=]: the name
    [key] itself and the names that begin with [key=]. *)
Definition names_key (key name : string) : bool :=
  String.eqb name key || has_prefix (key +:+ "=") name.

(** No component and no flag of the builder yields a token that begins
    with [--key=]. *)
Definition free_of (key : string) (b : CommandBuilder) : Prop :=
  (∀ c, c ∈ components b → has_prefix ("--" +:+ key +:+ "=") c = false) ∧
  (∀ name value, flags b !! name = Some value → names_key key name = false) ∧
  (∀ name values value,
     arrayFlags b !! name = Some values → value ∈ values →
     names_key key name = false) ∧
  (∀ name, name ∈ boolFlags b → has_prefix (key +:+ "=") name = false).

(** A key without the character [=]. *)
Fixpoint plain_key (key : string) : bool :=
  match key with
  | EmptyString => true
  | String c key => negb (Ascii.eqb c "=") && plain_key key
  end.

(** The well-formed encodings of one rune above U+007F. *)
Definition is_rune (enc : string) : bool :=
  match enc with
  | String c1 (String c2 "") => valid2 c1 c2
  | String c1 (String c2 (String c3 "")) => valid3 c1 c2 c3
  | String c1 (String c2 (String c3 (String c4 ""))) => valid4 c1 c2 c3 c4
  | _ => false
  end.

(** A string coerced to well-formed UTF-8 the way [appendString] does it:
    every byte that starts no well-formed rune is replaced by U+FFFD. *)
Fixpoint coerce (s : string) : string :=
  match s with
  | EmptyString => ""
  | String c1 s1 =>
      if (byte c1 <? 128)%N then String c1 (coerce s1)
      else DecodeRune c1 s1 (λ enc rest, enc +:+ coerce rest)
                      (RuneError +:+ coerce s1)
  end.

Definition coerce_member (m : string * string) : string * string :=
  (coerce m.1, coerce m.2).

(** Chains of calls without an effective project override, and without a
    call that sets the format. *)
Definition no_project_override (cs : list Call) : Prop :=
  Forall (λ c, match c with CallWithProject p => p = "" | _ => True end) cs.

Definition no_format_call (cs : list Call) : Prop :=
  Forall (λ c, match c with
               | CallWithFormat _ | CallWithTextFormat => False
               | _ => True
               end) cs.

(** [fl] and [al] are orders in which the maps of [b] can be visited. *)
Definition visit_order (fl : list (string * string))
    (al : list (string * list string)) (b : CommandBuilder) : Prop :=
  fl ≡ₚ map_to_list (flags b) ∧ al ≡ₚ map_to_list (arrayFlags b).

(** The values that a chain of calls writes: the values of [WithFlag] and
    of [WithArrayFlag] for one name, the names of [WithBoolFlag], the
    overrides of the three scope fields and of the format, each in call
    order; an empty value writes nothing, except for the format. *)
Definition flag_writes (name : string) (cs : list Call) : list string :=
  omap (λ c, match c with
             | CallWithFlag n v =>
                 if decide (n = name) then (if nonempty v then Some v else None)
                 else None
             | _ => None
             end) cs.

Definition array_writes (name : string) (cs : list Call) : list string :=
  omap (λ c, match c with
             | CallWithArrayFlag n v =>
                 if decide (n = name) then (if nonempty v then Some v else None)
                 else None
             | _ => None
             end) cs.

Definition bool_writes (cs : list Call) : list string :=
  omap (λ c, match c with CallWithBoolFlag n => Some n | _ => None end) cs.

Definition project_writes (cs : list Call) : list string :=
  omap (λ c, match c with
             | CallWithProject p => if nonempty p then Some p else None
             | _ => None
             end) cs.

Definition region_writes (cs : list Call) : list string :=
  omap (λ c, match c with
             | CallWithRegion r => if nonempty r then Some r else None
             | _ => None
             end) cs.

Definition zone_writes (cs : list Call) : list string :=
  omap (λ c, match c with
             | CallWithZone z => if nonempty z then Some z else None
             | _ => None
             end) cs.

Definition format_writes (cs : list Call) : list string :=
  omap (λ c, match c with
             | CallWithFormat f => Some f
             | CallWithTextFormat => Some ""
             | _ => None
             end) cs.

(** The part of the builder state that a call writes. *)
Inductive Field :=
  | FieldProject | FieldRegion | FieldZone | FieldFormat | FieldBoolFlags
  | FieldFlag (name : string) | FieldArrayFlag (name : string).

Definition written (c : Call) : Field :=
  match c with
  | CallWithProject _ => FieldProject
  | CallWithRegion _ => FieldRegion
  | CallWithZone _ => FieldZone
  | CallWithFlag n _ => FieldFlag n
  | CallWithArrayFlag n _ => FieldArrayFlag n
  | CallWithBoolFlag _ => FieldBoolFlags
  | CallWithFormat _ | CallWithTextFormat => FieldFormat
  end.

(** No flag holds an empty value, and no array flag an empty list or an
    empty value. *)
Definition flags_nonempty (b : CommandBuilder) : Prop :=
  (∀ name value, flags b !! name = Some value → value ≠ "") ∧
  (∀ name values,
     arrayFlags b !! name = Some values →
     values ≠ [] ∧ ∀ value, value ∈ values → value ≠ "").



(** The first and the last byte of a string. *)
Definition first_byte (s : string) : option ascii :=
  match s with EmptyString => None | String c _ => Some c end.

Fixpoint last_byte (s : string) : option ascii :=
  match s with
  | EmptyString => None
  | String c EmptyString => Some c
  | String _ s => last_byte s
  end.



(** The strings among the values of a slice, in order. *)
Definition strings_of (arr : list any) : list string :=
  omap (λ v, match v with AnyString s => Some s | _ => None end) arr.

(** A value as the string that [GetOptionalStringMap] stores for it. *)
Definition as_text (Sprint : any → string) (v : any) : string :=
  match v with AnyString s => s | v => Sprint v end.

(** The project of the command of a handler: the argument [project] when
    it is a string that is not empty, the project of the configuration
    otherwise; and the token that [Build] makes of it. *)
Definition handler_project (base : BaseService) (args : gmap string any) : string :=
  let p := GetOptionalString args "project" "" in
  if nonempty p then p else Project (config (bs_Executor base)).

Definition project_token (base : BaseService) (args : gmap string any)
    : list string :=
  if nonempty (handler_project base args)
  then ["--project=" +:+ handler_project base args] else [].

(** The runtime visits every entry of a map once. *)
Definition every_entry_once (rg : Range) : Prop :=
  (∀ m, range_flags rg m ≡ₚ map_to_list m) ∧
  (∀ m, range_arrayFlags rg m ≡ₚ map_to_list m).

(** The command that a handler starts with the arguments [cmdargs]. *)
Definition gcloud (base : BaseService) (cmdargs : list string) : Cmd :=
  mkCmd (GCloudPath (config (bs_Executor base))) cmdargs
        (CommandTimeout (config (bs_Executor base))).

(* ================================================================== *)
(** * Properties *)

Example build_complete :
  Build (WithBoolFlag "allow-unauthenticated"
          (WithFlag "memory" "512Mi"
            (WithRegion "us-east1"
              (WithProject "prod-project"
                (Command (New (mkConfig "default-project" "us-central1"
                                        "us-central1-a" "gcloud" 300))
                         ["run"; "deploy"; "my-service"])))))
  = ["run"; "deploy"; "my-service"; "--memory=512Mi";
     "--allow-unauthenticated"; "--project=prod-project"; "--format=json"].
Proof. vm_compute. reflexivity. Qed.

Example build_basic :
  Build (WithTextFormat
           (Command (New (mkConfig "" "" "" "gcloud" 60)) ["run"; "services"; "list"]))
  = ["run"; "services"; "list"].
Proof. vm_compute. reflexivity. Qed.

Example build_array_flags :
  Build (WithTextFormat
           (WithArrayFlag "set-env-vars" "KEY2=val2"
              (WithArrayFlag "set-env-vars" "KEY1=val1"
                 (Command (New (mkConfig "" "" "" "gcloud" 60))
                          ["run"; "deploy"; "my-service"]))))
  = ["run"; "deploy"; "my-service";
     "--set-env-vars=KEY1=val1"; "--set-env-vars=KEY2=val2"].
Proof. vm_compute. reflexivity. Qed.

Example execute_failure :
  let run := λ _ : Cmd,
    mkOutput "" "ERROR: permission denied" (Some (ExitError 2 "exit status 2")) in
  let b := Command (New (mkConfig "" "" "" "gcloud" 60)) ["run"; "list"] in
  Execute run [] [] b []
  = ((mkResult None "" "ERROR: permission denied" 2,
      Some (errorString ("gcloud command failed: exit status 2"
                         +:+ String "010" "stderr: ERROR: permission denied"))),
     [mkCmd "gcloud" ["run"; "list"; "--format=json"] 60]).
Proof. vm_compute. reflexivity. Qed.

Example is_empty_cases :
  IsEmpty (mkResult None "" "" 0) = true ∧
  IsEmpty (mkResult (Some "{}") "" "" 0) = false ∧
  IsEmpty (mkResult None "some output" "" 0) = false.
Proof. done. Qed.

Example trim_space_ascii :
  TrimSpace (String "009" (String "010" (" {}  " +:+ String "013" ""))) = "{}".
Proof. vm_compute. reflexivity. Qed.

Example trim_space_nbsp :
  TrimSpace (String "194" (String "160" ("a b" +:+ String "226" (String "128" (String "168" ""))))) = "a b".
Proof. vm_compute. reflexivity. Qed.

Example trim_space_invalid :
  TrimSpace (String "128" (String "133" "")) = String "128" (String "133" "").
Proof. vm_compute. reflexivity. Qed.

(** ** The layout of the list that [Build] returns *)

Section BuildLayout.

Lemma foldl_snoc {A B} (f : B → A) (acc : list A) (l : list B) :
  foldl (λ args x, args ++ [f x]) acc l = acc ++ (f <$> l).
Proof.
  revert acc. induction l as [|x l IH]; intros acc; simpl.
  - by rewrite app_nil_r.
  - by rewrite IH, <-app_assoc.
Qed.

Lemma foldl_snoc_blocks {A B C} (f : B → C → A) (g : B → list C)
    (acc : list A) (l : list B) :
  foldl (λ args x, foldl (λ args y, args ++ [f x y]) args (g x)) acc l
  = acc ++ concat ((λ x, f x <$> g x) <$> l).
Proof.
  revert acc. induction l as [|x l IH]; intros acc; simpl.
  - by rewrite app_nil_r.
  - by rewrite IH, foldl_snoc, <-app_assoc.
Qed.

Lemma BuildWith_layout (fl : list (string * string))
    (al : list (string * list string)) (b : CommandBuilder) :
  BuildWith fl al b
  = components b
    ++ ((λ nv : string * string, sprintf_flag nv.1 nv.2) <$> fl)
    ++ concat ((λ nvs : string * list string, sprintf_flag nvs.1 <$> nvs.2) <$> al)
    ++ (sprintf_bool <$> boolFlags b)
    ++ project_args b ++ format_args b.
Proof.
  unfold BuildWith, project_args, format_args.
  rewrite (foldl_snoc (λ nv, sprintf_flag nv.1 nv.2)).
  rewrite (foldl_snoc_blocks (λ nvs : string * list string, sprintf_flag nvs.1) snd).
  rewrite (foldl_snoc sprintf_bool). simpl.
  destruct (nonempty (project b)), (nonempty (format b));
    rewrite <-?app_assoc, ?app_nil_r; reflexivity.
Qed.

Lemma nonempty_true s : nonempty s = true ↔ s ≠ "".
Proof. destruct s; simpl; split; congruence. Qed.

Lemma nonempty_false s : nonempty s = false ↔ s = "".
Proof. destruct s; simpl; split; congruence. Qed.

Lemma visit_order_lookup {A} (m : gmap string A) (l : list (string * A)) :
  l ≡ₚ map_to_list m →
  NoDup l ∧ ∀ k x, (k, x) ∈ l ↔ m !! k = Some x.
Proof.
  intros Hl. split.
  - rewrite Hl. apply NoDup_map_to_list.
  - intros k x. rewrite Hl. apply elem_of_map_to_list.
Qed.

Lemma Builds_Build b : Builds b (Build b).
Proof. by exists (map_to_list (flags b)), (map_to_list (arrayFlags b)). Qed.

(** All runs of [Build] on one state return the same tokens, in a
    possibly different order. *)
Lemma BuildWith_Permutation fl al fl' al' b :
  fl ≡ₚ fl' → al ≡ₚ al' → BuildWith fl al b ≡ₚ BuildWith fl' al' b.
Proof.
  intros Hf Ha. rewrite !BuildWith_layout.
  by rewrite Hf, Ha.
Qed.

Lemma Builds_Permutation b args : Builds b args → args ≡ₚ Build b.
Proof.
  intros (fl & al & Hf & Ha & ->). by apply BuildWith_Permutation.
Qed.

End BuildLayout.

(** C1. Every run of [Build] terminates with a list made of: the components,
    verbatim and in order; one token [--name=value] for each entry of
    [flags], in the order the map was visited; for each key of [arrayFlags],
    taken in the order the map was visited, one token [--name=value] per
    stored value in stored order; one token [--name] per entry of
    [boolFlags] in order; the token [--project=...] if the project is not
    empty; the token [--format=...] if the format is not empty; and nothing
    else. *)
Theorem C1_Build_layout (b : CommandBuilder) :
  Builds b (Build b) ∧
  ∀ args, Builds b args →
    ∃ (fl : list (string * string)) (al : list (string * list string)),
      (NoDup fl ∧ ∀ name value, (name, value) ∈ fl ↔ flags b !! name = Some value) ∧
      (NoDup al ∧ ∀ name values,
                    (name, values) ∈ al ↔ arrayFlags b !! name = Some values) ∧
      args = components b
             ++ ((λ nv : string * string, "--" +:+ nv.1 +:+ "=" +:+ nv.2) <$> fl)
             ++ concat ((λ nvs : string * list string,
                           (λ value, "--" +:+ nvs.1 +:+ "=" +:+ value) <$> nvs.2)
                          <$> al)
             ++ ((λ flag, "--" +:+ flag) <$> boolFlags b)
             ++ (if decide (project b = "") then [] else ["--project=" +:+ project b])
             ++ (if decide (format b = "") then [] else ["--format=" +:+ format b]).
Proof.
  split; [apply Builds_Build|].
  intros args (fl & al & Hf & Ha & ->). exists fl, al.
  split; [by apply visit_order_lookup|].
  split; [by apply visit_order_lookup|].
  rewrite BuildWith_layout. unfold project_args, format_args.
  repeat f_equal.
  - destruct (decide (project b = "")) as [->|Hp]; [done|].
    by apply nonempty_true in Hp as ->.
  - destruct (decide (format b = "")) as [->|Hp]; [done|].
    by apply nonempty_true in Hp as ->.
Qed.

(** ** Mutators *)

Section Mutators.

Implicit Types (b : CommandBuilder) (cs : list Call).

Lemma apply_calls_snoc cs c b :
  apply_calls (cs ++ [c]) b = apply_call c (apply_calls cs b).
Proof. unfold apply_calls. by rewrite foldl_app. Qed.

Lemma components_apply_call c b : components (apply_call c b) = components b.
Proof.
  destruct c as [p|r|z|n v|n v|n|f|]; simpl;
    unfold WithProject, WithRegion, WithZone, WithFlag, WithArrayFlag;
    try done; by destruct (nonempty _).
Qed.

Lemma components_apply_calls cs b :
  components (apply_calls cs b) = components b.
Proof.
  revert b. induction cs as [|c cs IH]; intros b; [done|].
  simpl. by rewrite IH, components_apply_call.
Qed.

Lemma project_apply_calls cs b :
  no_project_override cs → project (apply_calls cs b) = project b.
Proof.
  intros Hcs. revert b.
  induction Hcs as [|c cs Hc _ IH]; intros b; [done|].
  simpl. rewrite IH.
  destruct c as [p|r|z|n v|n v|n|f|]; simpl;
    unfold WithProject, WithRegion, WithZone, WithFlag, WithArrayFlag;
    try done; try by destruct (nonempty _).
  by rewrite Hc.
Qed.

Lemma format_apply_calls cs b :
  no_format_call cs → format (apply_calls cs b) = format b.
Proof.
  intros Hcs. revert b.
  induction Hcs as [|c cs Hc _ IH]; intros b; [done|].
  simpl. rewrite IH.
  destruct c as [p|r|z|n v|n v|n|f|]; simpl;
    unfold WithProject, WithRegion, WithZone, WithFlag, WithArrayFlag;
    try done; by destruct (nonempty _).
Qed.

End Mutators.

(** C2. A call of [WithFlag], [WithArrayFlag], [WithProject], [WithRegion]
    or [WithZone] with the empty string as value leaves every field of the
    builder as it was. *)
Theorem C2_empty_value_noop (b : CommandBuilder) (name : string) :
  WithFlag name "" b = b ∧
  WithArrayFlag name "" b = b ∧
  WithProject "" b = b ∧
  WithRegion "" b = b ∧
  WithZone "" b = b.
Proof. repeat split. Qed.

(** C7, as stated, fails: a second [WithBoolFlag] with the same name appends
    the name a second time. *)
Lemma C7_counterexample :
  let b := Command (New (mkConfig "" "" "" "gcloud" 60)) ["run"] in
  boolFlags (WithBoolFlag "quiet" b) = ["quiet"] ∧
  boolFlags (WithBoolFlag "quiet" (WithBoolFlag "quiet" b)) = ["quiet"; "quiet"] ∧
  WithBoolFlag "quiet" (WithBoolFlag "quiet" b) ≠ WithBoolFlag "quiet" b ∧
  arrayFlags (WithArrayFlag "env" "A=1" b) !! "env" = Some ["A=1"] ∧
  arrayFlags (WithArrayFlag "env" "A=1" (WithArrayFlag "env" "A=1" b)) !! "env"
  = Some ["A=1"; "A=1"].
Proof.
  split_and!; try reflexivity.
  intros H. discriminate (f_equal boolFlags H).
Qed.

(** C7, amended. [WithProject], [WithRegion], [WithZone], [WithFlag],
    [WithFormat] and [WithTextFormat] are idempotent, and so is
    [WithArrayFlag] with an empty value.  [WithBoolFlag], and
    [WithArrayFlag] with a value that is not empty, append one more entry
    each time they are applied. *)
Theorem C7_mutators_reapplied (b : CommandBuilder) (name value : string) :
  WithProject value (WithProject value b) = WithProject value b ∧
  WithRegion value (WithRegion value b) = WithRegion value b ∧
  WithZone value (WithZone value b) = WithZone value b ∧
  WithFlag name value (WithFlag name value b) = WithFlag name value b ∧
  WithFormat value (WithFormat value b) = WithFormat value b ∧
  WithTextFormat (WithTextFormat b) = WithTextFormat b ∧
  WithArrayFlag name "" (WithArrayFlag name "" b) = WithArrayFlag name "" b ∧
  boolFlags (WithBoolFlag name (WithBoolFlag name b))
    = boolFlags b ++ [name; name] ∧
  (value ≠ "" →
   arrayFlags (WithArrayFlag name value (WithArrayFlag name value b)) !! name
     = Some (default [] (arrayFlags b !! name) ++ [value; value])).
Proof.
  unfold WithProject, WithRegion, WithZone, WithFlag, WithArrayFlag.
  destruct (nonempty value) eqn:Hv; simpl; rewrite ?Hv;
    repeat split; simpl; try done.
  - unfold set_flags; simpl. by rewrite insert_insert_eq.
  - by rewrite <-app_assoc.
  - intros _. rewrite !lookup_insert_eq. simpl. by rewrite <-app_assoc.
  - by rewrite <-app_assoc.
  - intros Hne. by apply nonempty_true in Hne; congruence.
Qed.

(** C8, as stated, fails: [Command] is variadic and accepts no component
    at all. *)
Lemma C8_counterexample :
  components
    (apply_calls [CallWithFlag "limit" "5"; CallWithBoolFlag "quiet"]
                 (Command (New (mkConfig "p" "" "" "gcloud" 60)) []))
  = [].
Proof. reflexivity. Qed.

(** C8, amended. The components of a builder are the ones that were given
    to [Command], whatever mutators were called since; they are not empty
    exactly when [Command] was given at least one component. *)
Theorem C8_components_preserved (e : Executor) (comps : list string) (cs : list Call) :
  components (apply_calls cs (Command e comps)) = comps ∧
  (components (apply_calls cs (Command e comps)) ≠ [] ↔ comps ≠ []).
Proof.
  rewrite components_apply_calls. done.
Qed.

(** ** Which tokens a run of [Build] contains *)

Section Tokens.

Implicit Types (b : CommandBuilder) (t key name value : string).


Lemma prefix_key_flag key name value :
  plain_key key = true →
  has_prefix (key +:+ "=") (name +:+ "=" +:+ value) = names_key key name.
Proof.
  unfold names_key. revert name.
  induction key as [|k key IH]; intros [|c name] Hk; simpl in *.
  - done.
  - by rewrite andb_true_r.
  - apply andb_true_iff in Hk as [Hk _].
    destruct (Ascii.eqb_spec k "=") as [->|]; done.
  - apply andb_true_iff in Hk as [_ Hk].
    rewrite IH by done. rewrite (Ascii.eqb_sym k c).
    by destruct (Ascii.eqb c k).
Qed.

Lemma prefix_sprintf_flag key name value :
  plain_key key = true →
  has_prefix ("--" +:+ key +:+ "=") (sprintf_flag name value)
  = names_key key name.
Proof. intros Hk. simpl. by apply prefix_key_flag. Qed.

Lemma prefix_sprintf_bool key name :
  has_prefix ("--" +:+ key +:+ "=") (sprintf_bool name)
  = has_prefix (key +:+ "=") name.
Proof. reflexivity. Qed.

(** The tokens of a run of [Build], whatever the visiting order. *)
Lemma elem_of_BuildWith fl al b t :
  visit_order fl al b →
  t ∈ BuildWith fl al b ↔
    t ∈ components b
    ∨ (∃ name value, flags b !! name = Some value ∧ t = sprintf_flag name value)
    ∨ (∃ name values value,
         arrayFlags b !! name = Some values ∧ value ∈ values
         ∧ t = sprintf_flag name value)
    ∨ (∃ name, name ∈ boolFlags b ∧ t = sprintf_bool name)
    ∨ t ∈ project_args b ∨ t ∈ format_args b.
Proof.
  intros [Hf Ha]. rewrite BuildWith_layout, !elem_of_app.
  assert (t ∈ (λ nv : string * string, sprintf_flag nv.1 nv.2) <$> fl
          ↔ ∃ name value,
              flags b !! name = Some value ∧ t = sprintf_flag name value) as ->.
  { rewrite list_elem_of_fmap. split.
    - intros ([n v] & -> & Hin). exists n, v. split; [|done].
      apply elem_of_map_to_list. by rewrite <-Hf.
    - intros (n & v & Hn & ->). exists (n, v). split; [done|].
      rewrite Hf. by apply elem_of_map_to_list. }
  assert (t ∈ concat ((λ nvs : string * list string,
                         sprintf_flag nvs.1 <$> nvs.2) <$> al)
          ↔ ∃ name values value,
              arrayFlags b !! name = Some values ∧ value ∈ values
              ∧ t = sprintf_flag name value) as ->.
  { rewrite list_elem_of_In, in_concat. split.
    - intros (l & Hl & Ht). apply list_elem_of_In, list_elem_of_fmap in Hl
        as ([n vs] & -> & Hin).
      apply list_elem_of_In, list_elem_of_fmap in Ht as (v & -> & Hv).
      exists n, vs, v. split_and!; [|done..].
      apply elem_of_map_to_list. by rewrite <-Ha.
    - intros (n & vs & v & Hn & Hv & ->).
      exists (sprintf_flag n <$> vs). split.
      + apply list_elem_of_In, list_elem_of_fmap. exists (n, vs).
        split; [done|]. rewrite Ha. by apply elem_of_map_to_list.
      + apply list_elem_of_In, list_elem_of_fmap. eauto. }
  assert (t ∈ sprintf_bool <$> boolFlags b
          ↔ ∃ name, name ∈ boolFlags b ∧ t = sprintf_bool name) as ->.
  { rewrite list_elem_of_fmap. split; intros (n & ? & ?); by exists n. }
  done.
Qed.

Lemma elem_of_Builds b args t :
  Builds b args → t ∈ args ↔ t ∈ Build b.
Proof. intros H%Builds_Permutation. by rewrite H. Qed.

(** The last two steps of [Build] split off. *)
Lemma BuildWith_split fl al b :
  BuildWith fl al b
  = BuildWith fl al (set_format "" (set_project "" b))
    ++ project_args b ++ format_args b.
Proof.
  rewrite !BuildWith_layout. simpl.
  unfold project_args at 2, format_args at 2. simpl.
  by rewrite !app_nil_r, <-!app_assoc.
Qed.

Lemma free_of_body key b :
  free_of key b → free_of key (set_format "" (set_project "" b)).
Proof. done. Qed.

(** Without such a component or flag, the tokens before the project step
    do not begin with [--key=]. *)
Lemma body_free_of key fl al b :
  plain_key key = true → free_of key b → visit_order fl al b →
  Forall (λ t, has_prefix ("--" +:+ key +:+ "=") t = false)
         (BuildWith fl al (set_format "" (set_project "" b))).
Proof.
  intros Hk (Hc & Hf & Ha & Hb) Hv. apply Forall_forall. intros t.
  rewrite elem_of_BuildWith by done.
  intros [Ht|[(n & v & Hn & ->)|[(n & vs & v & Hn & Hin & ->)|
           [(n & Hn & ->)|[Ht|Ht]]]]].
  - by apply Hc.
  - rewrite prefix_sprintf_flag by done. exact (Hf _ _ Hn).
  - rewrite prefix_sprintf_flag by done. exact (Ha _ _ _ Hn Hin).
  - rewrite prefix_sprintf_bool. exact (Hb _ Hn).
  - by apply elem_of_nil in Ht.
  - by apply elem_of_nil in Ht.
Qed.

Lemma filter_none {A} (P : A → Prop) `{∀ x, Decision (P x)} (l : list A) :
  Forall (λ x, ¬ P x) l → filter P l = [].
Proof.
  induction 1 as [|x l Hx _ IH]; [done|].
  by rewrite filter_cons_False.
Qed.

Lemma filter_body_free_of key fl al b :
  plain_key key = true → free_of key b → visit_order fl al b →
  filter (λ t, has_prefix ("--" +:+ key +:+ "=") t = true)
         (BuildWith fl al (set_format "" (set_project "" b))) = [].
Proof.
  intros Hk Hfree Hv. apply filter_none.
  eapply Forall_impl; [by apply body_free_of|].
  simpl. intros t ->. done.
Qed.

End Tokens.

(** ** Tokens that begin with [--region=] or [--format=] *)

Section KeyTokens.

Implicit Types (b : CommandBuilder) (t : string).

Lemma filter_key_BuildWith key fl al b :
  plain_key key = true → free_of key b → visit_order fl al b →
  filter (λ t, has_prefix ("--" +:+ key +:+ "=") t = true) (BuildWith fl al b)
  = filter (λ t, has_prefix ("--" +:+ key +:+ "=") t = true)
           (project_args b ++ format_args b).
Proof.
  intros Hk Hfree Hv.
  rewrite BuildWith_split, filter_app.
  by rewrite filter_body_free_of.
Qed.


Lemma filter_format_BuildWith fl al b :
  free_of "format" b → visit_order fl al b →
  filter (λ t, is_format_token t = true) (BuildWith fl al b) = format_args b.
Proof.
  intros Hfree Hv.
  rewrite (filter_key_BuildWith "format") by done.
  unfold project_args, format_args.
  by destruct (nonempty (project b)), (nonempty (format b)).
Qed.

Lemma project_token_built b args :
  project b ≠ "" → Builds b args → "--project=" +:+ project b ∈ args.
Proof.
  intros Hp (fl & al & Hf & Ha & ->).
  apply elem_of_BuildWith; [done|].
  do 4 right. left. unfold project_args.
  apply nonempty_true in Hp as ->. apply list_elem_of_singleton. done.
Qed.


End KeyTokens.

(** ** Execution *)

Section ExecutionFacts.

Variable run : Cmd → Output.

(** The command that [Execute] starts. *)
Lemma Execute_log fl al b log :
  (Execute run fl al b log).2
  = log ++ [mkCmd (GCloudPath (config (executor b))) (BuildWith fl al b)
                  (CommandTimeout (config (executor b)))].
Proof.
  unfold Execute, bind, cmd_Run, ret.
  destruct (out_err _) as [[]|]; reflexivity.
Qed.

Lemma Execute_result fl al b log :
  let out := run (mkCmd (GCloudPath (config (executor b))) (BuildWith fl al b)
                        (CommandTimeout (config (executor b)))) in
  (Execute run fl al b log).1
  = match out_err out with
    | Some err =>
        (mkResult None (out_stdout out) (out_stderr out)
                  (match err with ExitError code _ => code | OtherError _ => 0%Z end),
         Some (errorString ("gcloud command failed: " +:+ RunError_Error err
                            +:+ String "010" "stderr: " +:+ out_stderr out)))
    | None =>
        (mkResult (if String.eqb (format b) "json" && nonempty (out_stdout out)
                      && nonempty (TrimSpace (out_stdout out))
                   then Some (TrimSpace (out_stdout out)) else None)
                  (out_stdout out) (out_stderr out) 0, None)
    end.
Proof.
  unfold Execute, bind, cmd_Run, ret. simpl.
  destruct (out_err _) as [[]|]; try reflexivity. simpl.
  destruct (String.eqb _ _ && nonempty _); [|reflexivity].
  by destruct (nonempty (TrimSpace _)).
Qed.


End ExecutionFacts.

(** C3. A builder made by [Command] from a configuration whose project is
    [P], and given no project override since, builds a list that contains
    [--project=P]; [WithProject V] with [V] not empty puts [--project=V] in
    the place of that token, and stays in force until the next override;
    [WithProject ""] changes nothing, and [--project=P] is still built. *)
Theorem C3_project_inheritance (e : Executor) (comps : list string)
    (cs cs' : list Call) (P V : string) :
  Project (config e) = P → P ≠ "" → V ≠ "" →
  no_project_override cs → no_project_override cs' →
  let b := apply_calls cs (Command e comps) in
  (∀ args, Builds b args → "--project=" +:+ P ∈ args) ∧
  (∀ fl al, ∃ pre post,
     BuildWith fl al b = pre ++ ["--project=" +:+ P] ++ post ∧
     BuildWith fl al (WithProject V b) = pre ++ ["--project=" +:+ V] ++ post) ∧
  (∀ args, Builds (apply_calls cs' (WithProject V b)) args →
           "--project=" +:+ V ∈ args) ∧
  (∀ args, Builds (WithProject "" b) args → "--project=" +:+ P ∈ args).
Proof.
  intros HP HPne HVne Hcs Hcs' b.
  assert (project b = P) as Hb.
  { unfold b. by rewrite project_apply_calls. }
  assert (WithProject V b = set_project V b) as HV.
  { unfold WithProject. by apply nonempty_true in HVne as ->. }
  split_and!.
  - intros args Hargs. rewrite <-Hb. apply project_token_built; [congruence|done].
  - intros fl al.
    exists (BuildWith fl al (set_format "" (set_project "" b))), (format_args b).
    rewrite HV. split.
    + rewrite (BuildWith_split fl al b). unfold project_args.
      rewrite Hb. by apply nonempty_true in HPne as ->.
    + rewrite (BuildWith_split fl al (set_project V b)). unfold project_args.
      simpl. by apply nonempty_true in HVne as ->.
  - intros args Hargs.
    assert (project (apply_calls cs' (WithProject V b)) = V) as HbV.
    { rewrite project_apply_calls by done. by rewrite HV. }
    rewrite <-HbV. apply project_token_built; [congruence|done].
  - intros args Hargs. rewrite <-Hb. apply project_token_built; [congruence|done].
Qed.


(** C5, as stated, fails: a flag named [format] gives a token beginning
    with [--format=] whatever the format field holds. *)
Lemma C5_counterexample :
  let e := New (mkConfig "" "" "" "gcloud" 60) in
  Build (WithTextFormat (WithFlag "format" "yaml" (Command e ["run"])))
  = ["run"; "--format=yaml"] ∧
  is_format_token "--format=yaml" = true ∧
  Build (WithFlag "format" "yaml" (Command e ["run"]))
  = ["run"; "--format=yaml"; "--format=json"].
Proof. vm_compute. done. Qed.

(** C5, amended. For a builder that has no component and no flag giving a
    [--format=] token: after [WithTextFormat], no token of a [Build] begins
    with [--format=]; and when the builder comes from [Command] by calls
    that do not set the format, exactly one token of a [Build] begins with
    [--format=], and it is [--format=json]. *)
Theorem C5_format_duality (e : Executor) (comps : list string) (cs : list Call)
    (b : CommandBuilder) :
  (free_of "format" b →
   ∀ args, Builds (WithTextFormat b) args →
           ∀ t, t ∈ args → is_format_token t = false) ∧
  (no_format_call cs → free_of "format" (apply_calls cs (Command e comps)) →
   ∀ args, Builds (apply_calls cs (Command e comps)) args →
           filter (λ t, is_format_token t = true) args = ["--format=json"]).
Proof.
  split.
  - intros Hfree args (fl & al & Hf & Ha & ->) t Ht.
    assert (filter (λ t, is_format_token t = true)
                   (BuildWith fl al (WithTextFormat b)) = []) as Hnil.
    { by rewrite filter_format_BuildWith. }
    destruct (is_format_token t) eqn:Hfmt; [|done].
    by destruct (filter_nil_not_elem_of _ _ t Hnil).
  - intros Hcs Hfree args (fl & al & Hf & Ha & ->).
    rewrite filter_format_BuildWith by done.
    unfold format_args. by rewrite format_apply_calls.
Qed.

(** C6. When [Execute] returns without error, the JSON payload of the
    result is present exactly when the format of the builder is ["json"]
    and the captured standard output, trimmed of surrounding white space,
    is not empty; the payload is then that trimmed output, byte for byte,
    whatever it contains. *)
Theorem C6_json_payload (run : Cmd → Output) (fl : list (string * string))
    (al : list (string * list string)) (b : CommandBuilder) (log : list Cmd)
    (r : Result) :
  (Execute run fl al b log).1 = (r, None) →
  (∃ cmd, (Execute run fl al b log).2 = log ++ [cmd] ∧
          out_err (run cmd) = None ∧ Stdout r = out_stdout (run cmd)) ∧
  (is_Some (JSON r) ↔ format b = "json" ∧ TrimSpace (Stdout r) ≠ "") ∧
  (∀ payload, JSON r = Some payload → payload = TrimSpace (Stdout r)) ∧
  (¬ (format b = "json" ∧ TrimSpace (Stdout r) ≠ "") → JSON r = None).
Proof.
  rewrite Execute_result, Execute_log. simpl.
  set (out := run _).
  destruct (out_err out) as [err|] eqn:Herr; [done|].
  intros [= <-]. simpl.
  assert (nonempty (out_stdout out) = false → TrimSpace (out_stdout out) = "")
    as Hempty.
  { intros ->%nonempty_false. reflexivity. }
  split; [by eauto|].
  destruct (String.eqb_spec (format b) "json") as [Hfmt|Hfmt]; simpl.
  - destruct (nonempty (out_stdout out)) eqn:Hout; simpl.
    + destruct (nonempty (TrimSpace (out_stdout out))) eqn:Htrim.
      * apply nonempty_true in Htrim.
        split_and!; [by eauto|congruence|tauto].
      * apply nonempty_false in Htrim.
        split_and!; [|done|done].
        split; [by intros []|]. intros []; congruence.
    + specialize (Hempty eq_refl).
      split_and!; [|done|done].
      split; [by intros []|]. intros []; congruence.
  - split_and!; [|done|done].
    split; [by intros []|]. intros []; congruence.
Qed.

(** C10, as stated, fails in its last part: with a flag named [format] a
    [--format=] token is built although [WithFormat ""] cleared the
    format. *)
Lemma C10_counterexample :
  let b := WithFlag "format" "value(name)"
             (Command (New (mkConfig "" "" "" "gcloud" 60)) ["projects"; "list"]) in
  WithFormat "" b = WithTextFormat b ∧
  Build (WithFormat "" b) = ["projects"; "list"; "--format=value(name)"] ∧
  is_format_token "--format=value(name)" = true.
Proof. vm_compute. done. Qed.

(** C10, amended. On every builder state [WithFormat ""] gives the state
    that [WithTextFormat] gives: the format is cleared, not kept, so the
    default ["json"] is lost, and a [Build] is the [Build] of the state
    before the call without its final [--format=] token.  When the builder
    has no component and no flag giving a [--format=] token, no token of
    the list begins with [--format=]. *)
Theorem C10_WithFormat_empty (b : CommandBuilder) :
  WithFormat "" b = WithTextFormat b ∧
  format (WithFormat "" b) = "" ∧
  (∀ e comps, Build (WithFormat "" (Command e comps))
              = comps ++ project_args (Command e comps)) ∧
  (∀ fl al, BuildWith fl al b
            = BuildWith fl al (WithFormat "" b) ++ format_args b) ∧
  (free_of "format" b →
   ∀ args, Builds (WithFormat "" b) args →
           ∀ t, t ∈ args → is_format_token t = false).
Proof.
  split_and!; try done.
  - intros e comps. unfold Build. rewrite BuildWith_layout. simpl.
    rewrite !map_to_list_empty. simpl. by rewrite app_nil_r.
  - intros fl al. rewrite !BuildWith_layout. simpl.
    unfold format_args at 2. simpl. by rewrite app_nil_r, <-!app_assoc.
  - intros Hfree args (fl & al & Hf & Ha & ->) t Ht.
    assert (filter (λ t, is_format_token t = true)
                   (BuildWith fl al (WithFormat "" b)) = []) as Hnil.
    { by rewrite filter_format_BuildWith. }
    destruct (is_format_token t) eqn:Hfmt; [|done].
    by destruct (filter_nil_not_elem_of _ _ t Hnil).
Qed.

Example format_error_boom :
  Unmarshal (FormatError (errorString "boom") "tool x y" "denied")
  = Some (mkErrorResponse "boom" "tool x y" "denied").
Proof. vm_compute. reflexivity. Qed.

Example format_error_text :
  FormatError (errorString "a<b") "" "x"
  = "{" +:+ newline +:+ "  " +:+ String dquote "error" +:+ String dquote ": "
    +:+ String dquote "a\u003cb" +:+ String dquote "," +:+ newline
    +:+ "  " +:+ String dquote "stderr" +:+ String dquote ": "
    +:+ String dquote "x" +:+ String dquote newline +:+ "}".
Proof. vm_compute. reflexivity. Qed.


(** ** Reading back what [appendString] wrote *)

Section Unquote.

Implicit Types (c : ascii) (s rest enc : string).

Lemma append_cons c s1 s2 : String c s1 +:+ s2 = String c (s1 +:+ s2).
Proof. reflexivity. Qed.

Lemma append_nil_l s : "" +:+ s = s.
Proof. reflexivity. Qed.

Lemma append_assoc s1 s2 s3 : (s1 +:+ s2) +:+ s3 = s1 +:+ (s2 +:+ s3).
Proof.
  induction s1 as [|c s1 IH]; [done|].
  by rewrite !append_cons, IH.
Qed.

Lemma length_append s1 s2 :
  String.length (s1 +:+ s2) = String.length s1 + String.length s2.
Proof.
  induction s1 as [|c s1 IH]; [done|].
  rewrite append_cons. simpl. by rewrite IH.
Qed.

Lemma emit_Some out t rest : emit out (Some (t, rest)) = Some (out +:+ t, rest).
Proof. done. Qed.

(** An escaped byte is read back as the byte. *)
Lemma unquote_escape_byte c s :
  (byte c <? 128)%N = true →
  unquote (escape_byte c +:+ s) = emit (String c "") (unquote s).
Proof.
  destruct c as [[] [] [] [] [] [] [] []]; intros H;
    first [discriminate H | reflexivity].
Qed.

(** Boolean tests on bytes as arithmetic facts. *)
Ltac arith H :=
  unfold valid2, valid3, valid4, cont, in_range in H;
  repeat first
    [ rewrite andb_true_iff in H | rewrite orb_true_iff in H
    | rewrite N.leb_le in H | rewrite N.ltb_lt in H | rewrite N.eqb_eq in H ].

Lemma valid2_range c1 c2 : valid2 c1 c2 = true → (194 ≤ byte c1 ≤ 223)%N.
Proof. intros H. arith H. lia. Qed.

Lemma valid3_range c1 c2 c3 : valid3 c1 c2 c3 = true → (224 ≤ byte c1 ≤ 239)%N.
Proof. intros H. arith H. lia. Qed.

Lemma valid4_range c1 c2 c3 c4 :
  valid4 c1 c2 c3 c4 = true → (240 ≤ byte c1 ≤ 244)%N.
Proof. intros H. arith H. lia. Qed.

Lemma valid2_false c1 c2 : ¬ (194 ≤ byte c1 ≤ 223)%N → valid2 c1 c2 = false.
Proof.
  intros H. destruct (valid2 c1 c2) eqn:Hv; [|done].
  by apply valid2_range in Hv.
Qed.

Lemma valid3_false c1 c2 c3 : ¬ (224 ≤ byte c1 ≤ 239)%N → valid3 c1 c2 c3 = false.
Proof.
  intros H. destruct (valid3 c1 c2 c3) eqn:Hv; [|done].
  by apply valid3_range in Hv.
Qed.

Lemma is_rune_first c b : is_rune (String c b) = true → (194 ≤ byte c ≤ 244)%N.
Proof.
  destruct b as [|c2 [|c3 [|c4 [|??]]]]; simpl; try done.
  - intros ?%valid2_range. lia.
  - intros ?%valid3_range. lia.
  - intros ?%valid4_range. lia.
Qed.

(** [DecodeRune] finds a well-formed rune or nothing. *)
Lemma DecodeRune_cases c1 s1 :
  (∃ b rest,
     s1 = b +:+ rest ∧ is_rune (String c1 b) = true ∧
     ∀ A (rune : string → string → A) (bad : A),
       DecodeRune c1 s1 rune bad = rune (String c1 b) rest)
  ∨ (∀ A (rune : string → string → A) (bad : A),
       DecodeRune c1 s1 rune bad = bad).
Proof.
  unfold DecodeRune.
  destruct s1 as [|c2 s2]; [by right|].
  destruct (valid2 c1 c2) eqn:H2.
  { left. by exists (String c2 ""), s2. }
  destruct s2 as [|c3 s3]; [by right|].
  destruct (valid3 c1 c2 c3) eqn:H3.
  { left. by exists (String c2 (String c3 "")), s3. }
  destruct s3 as [|c4 s4]; [by right|].
  destruct (valid4 c1 c2 c3 c4) eqn:H4.
  { left. by exists (String c2 (String c3 (String c4 ""))), s4. }
  by right.
Qed.

(** The rune found depends on the bytes of the rune only. *)
Lemma DecodeRune_rune {A} c1 b rest (rune : string → string → A) (bad : A) :
  is_rune (String c1 b) = true →
  DecodeRune c1 (b +:+ rest) rune bad = rune (String c1 b) rest.
Proof.
  destruct b as [|c2 [|c3 [|c4 [|??]]]]; simpl; try done; intros H;
    rewrite ?append_cons, ?append_nil_l; unfold DecodeRune.
  - by rewrite H.
  - pose proof (valid3_range _ _ _ H).
    rewrite (valid2_false c1 c2) by lia. by rewrite H.
  - pose proof (valid4_range _ _ _ _ H).
    rewrite (valid2_false c1 c2), (valid3_false c1 c2 c3) by lia.
    by rewrite H.
Qed.

Lemma unquote_rune c1 b rest :
  is_rune (String c1 b) = true →
  unquote (String c1 b +:+ rest) = emit (String c1 b) (unquote rest).
Proof.
  intros H. pose proof (is_rune_first _ _ H) as Hc.
  rewrite append_cons. simpl.
  destruct (N.eqb_spec (byte c1) 34); [lia|].
  destruct (N.eqb_spec (byte c1) 92); [lia|].
  destruct (N.ltb_spec (byte c1) 32); [lia|].
  destruct (N.ltb_spec (byte c1) 128); [lia|].
  by rewrite DecodeRune_rune.
Qed.

(** An escaped rune is read back as the rune. *)
Lemma unquote_escape_rune enc rest :
  is_rune enc = true →
  unquote (escape_rune enc +:+ rest) = emit enc (unquote rest).
Proof.
  intros H. unfold escape_rune.
  destruct (String.eqb_spec enc LineSeparator) as [->|_]; [reflexivity|].
  destruct (String.eqb_spec enc ParagraphSeparator) as [->|_]; [reflexivity|].
  destruct enc as [|c1 b]; [done|]. by apply unquote_rune.
Qed.

(** Reading up to the closing quote gives the string that was written,
    coerced to well-formed UTF-8. *)
Lemma unquote_escaped_bounded (n : nat) s rest :
  String.length s ≤ n →
  unquote (escape s +:+ String dquote rest) = Some (coerce s, rest).
Proof.
  revert s. induction n as [|n IH]; intros [|c1 s1] Hlen;
    try done; simpl in Hlen; [lia|].
  simpl escape. simpl coerce.
  destruct (byte c1 <? 128)%N eqn:Hc.
  - rewrite append_assoc, unquote_escape_byte by done.
    rewrite IH by lia. done.
  - destruct (DecodeRune_cases c1 s1) as [(b & rest' & -> & Hrune & Heq)|Hbad].
    + rewrite !Heq.
      rewrite append_assoc, unquote_escape_rune by done.
      rewrite length_append in Hlen.
      rewrite IH by lia. done.
    + rewrite !Hbad. rewrite append_assoc.
      change (unquote ("\ufffd" +:+ escape s1 +:+ String dquote rest))
        with (emit RuneError (unquote (escape s1 +:+ String dquote rest))).
      rewrite IH by lia. done.
Qed.

Lemma unquote_escaped s rest :
  unquote (escape s +:+ String dquote rest) = Some (coerce s, rest).
Proof. by apply (unquote_escaped_bounded (String.length s)). Qed.

(** Coercion leaves exactly the well-formed strings as they are: each
    replacement makes the string longer. *)
Lemma coerce_length_bounded (n : nat) s :
  String.length s ≤ n →
  String.length s ≤ String.length (coerce s) ∧
  (ValidString s = true → coerce s = s) ∧
  (ValidString s = false → String.length s < String.length (coerce s)).
Proof.
  revert s. induction n as [|n IH]; intros [|c1 s1] Hlen;
    try done; simpl in Hlen; [lia|].
  simpl coerce. simpl ValidString.
  destruct (byte c1 <? 128)%N eqn:Hc.
  - destruct (IH s1) as (H1 & H2 & H3); [lia|]. simpl.
    split_and!; [lia| |].
    + intros Hv. by rewrite H2.
    + intros Hv. specialize (H3 Hv). lia.
  - destruct (DecodeRune_cases c1 s1) as [(b & rest' & -> & Hrune & Heq)|Hbad].
    + rewrite !Heq. rewrite length_append in Hlen.
      destruct (IH rest') as (H1 & H2 & H3); [lia|].
      rewrite !append_cons. simpl. rewrite !length_append.
      split_and!; [lia| |].
      * intros Hv. by rewrite H2.
      * intros Hv. specialize (H3 Hv). lia.
    + rewrite !Hbad. destruct (IH s1) as (H1 & _ & _); [lia|].
      rewrite length_append. simpl.
      split_and!; [lia|done|lia].
Qed.

Lemma coerce_valid s : ValidString s = true → coerce s = s.
Proof. apply (coerce_length_bounded (String.length s) s). done. Qed.

Lemma coerce_fixed s : coerce s = s ↔ ValidString s = true.
Proof.
  split; [|apply coerce_valid].
  intros Heq. destruct (ValidString s) eqn:Hv; [done|].
  destruct (coerce_length_bounded (String.length s) s) as (_ & _ & H); [done|].
  specialize (H Hv). rewrite Heq in H. lia.
Qed.

Lemma nonempty_coerce s : nonempty (coerce s) = nonempty s.
Proof.
  destruct s as [|c1 s1]; [done|]. simpl.
  destruct (byte c1 <? 128)%N; [done|].
  destruct (DecodeRune_cases c1 s1) as [(b & rest' & -> & Hrune & Heq)|Hbad].
  - by rewrite Heq.
  - by rewrite Hbad.
Qed.

Lemma read_string_appendString s rest :
  read_string (appendString s +:+ rest) = Some (coerce s, rest).
Proof.
  unfold appendString, read_string.
  rewrite append_cons, append_assoc, append_cons, append_nil_l.
  by apply unquote_escaped.
Qed.

End Unquote.

(** ** Reading back what [MarshalIndent] wrote *)

Section Unmarshal.

Implicit Types (k v tail rest : string) (ms : list (string * string)).

Lemma skip_space_appendString s rest :
  skip_space (appendString s +:+ rest) = appendString s +:+ rest.
Proof. reflexivity. Qed.

(** One member, from its name to the text after its value. *)
Lemma read_members_member fuel k v tail :
  read_members (S fuel) (appendString k +:+ ": " +:+ appendString v +:+ tail)
  = match skip_space tail with
    | EmptyString => None
    | String d s =>
        if (byte d =? 44)%N then
          match read_members fuel (skip_space s) with
          | Some (ms, s) => Some ((coerce k, coerce v) :: ms, s)
          | None => None
          end
        else if (byte d =? 125)%N then Some ([(coerce k, coerce v)], s)
        else None
    end.
Proof.
  cbn [read_members].
  rewrite read_string_appendString.
  change (skip_space (": " +:+ appendString v +:+ tail))
    with (String ":" (String " " (appendString v +:+ tail))).
  change (negb (byte ":" =? 58)%N) with false. cbv iota.
  change (skip_space (String " " (appendString v +:+ tail)))
    with (appendString v +:+ tail).
  by rewrite read_string_appendString.
Qed.

Lemma indent_members_cons k v m ms :
  indent_members ((k, v) :: m :: ms)
  = appendString k +:+ ": " +:+ appendString v +:+ "," +:+ newline +:+ "  "
    +:+ indent_members (m :: ms).
Proof. reflexivity. Qed.

Lemma indent_members_head m ms :
  ∃ tail, indent_members (m :: ms) = String dquote tail.
Proof. destruct m as [k v], ms as [|m' ms]; by eexists. Qed.

(** The members of an object, up to the closing brace. *)
Lemma read_members_indent fuel ms rest :
  ms ≠ [] → length ms ≤ fuel →
  read_members fuel (indent_members ms +:+ newline +:+ "}" +:+ rest)
  = Some (coerce_member <$> ms, rest).
Proof.
  revert fuel. induction ms as [|[k v] ms IH]; intros fuel Hne Hfuel;
    [done|].
  destruct fuel as [|fuel]; simpl in Hfuel; [lia|].
  destruct ms as [|m ms].
  - cbn [indent_members]. rewrite !append_assoc.
    by rewrite read_members_member.
  - rewrite indent_members_cons, !append_assoc.
    rewrite read_members_member.
    destruct (indent_members_head m ms) as [tail Htail].
    change (skip_space ("," +:+ newline +:+ "  " +:+ indent_members (m :: ms)
                        +:+ newline +:+ "}" +:+ rest))
      with (String "," (newline +:+ "  " +:+ indent_members (m :: ms)
                        +:+ newline +:+ "}" +:+ rest)).
    change (byte "," =? 44)%N with true. cbv iota.
    rewrite Htail.
    change (skip_space (newline +:+ "  " +:+ String dquote tail
                        +:+ newline +:+ "}" +:+ rest))
      with (String dquote tail +:+ newline +:+ "}" +:+ rest).
    rewrite <-Htail.
    rewrite IH by (done || simpl in *; lia). done.
Qed.

Lemma length_indent_members ms : length ms ≤ String.length (indent_members ms).
Proof.
  induction ms as [|[k v] [|m ms] IH]; [simpl; lia|..].
  - cbn [indent_members]. unfold appendString.
    rewrite append_cons. simpl. lia.
  - rewrite indent_members_cons, !length_append. simpl in *. lia.
Qed.

(** The text of an object with at least one member. *)
Lemma read_object_indent ms :
  ms ≠ [] →
  read_object ("{" +:+ newline +:+ "  " +:+ indent_members ms +:+ newline +:+ "}")
  = Some (coerce_member <$> ms).
Proof.
  intros Hne.
  destruct ms as [|m ms]; [done|].
  destruct (indent_members_head m ms) as [tail Htail].
  unfold read_object.
  change (skip_space ("{" +:+ newline +:+ "  " +:+ indent_members (m :: ms)
                      +:+ newline +:+ "}"))
    with (String "{" (newline +:+ "  " +:+ indent_members (m :: ms)
                      +:+ newline +:+ "}")).
  cbv iota. change (negb (byte "{" =? 123)%N) with false. cbv iota.
  rewrite Htail.
  change (skip_space (newline +:+ "  " +:+ String dquote tail +:+ newline +:+ "}"))
    with (String dquote (tail +:+ newline +:+ "}")).
  cbv iota. change (byte dquote =? 125)%N with false. cbv iota.
  change (String dquote (tail +:+ newline +:+ "}"))
    with (String dquote tail +:+ newline +:+ "}" +:+ "").
  rewrite <-Htail.
  rewrite read_members_indent; [done..|].
  pose proof (length_indent_members (m :: ms)).
  rewrite !length_append. lia.
Qed.

(** What [FormatError] writes reads back as the three strings coerced to
    well-formed UTF-8; a member is there for the error, and for each of the
    other two strings that is not empty. *)
Lemma FormatError_read_object err command stderr :
  read_object (FormatError err command stderr)
  = Some ([("error", coerce (Error err))]
          ++ (if nonempty command then [("command", coerce command)] else [])
          ++ (if nonempty stderr then [("stderr", coerce stderr)] else [])).
Proof.
  unfold FormatError, MarshalIndent. rewrite read_object_indent by done.
  unfold fields. simpl.
  by destruct (nonempty command), (nonempty stderr).
Qed.

Lemma FormatError_Unmarshal err command stderr :
  Unmarshal (FormatError err command stderr)
  = Some (mkErrorResponse (coerce (Error err)) (coerce command) (coerce stderr)).
Proof.
  unfold Unmarshal. rewrite FormatError_read_object.
  destruct command as [|c command], stderr as [|c' stderr]; by simpl.
Qed.

(** The three strings are read back unchanged exactly when they are
    well-formed UTF-8. *)
Lemma FormatError_Unmarshal_same err command stderr :
  Unmarshal (FormatError err command stderr)
  = Some (mkErrorResponse (Error err) command stderr)
  ↔ ValidString (Error err) = true ∧ ValidString command = true
    ∧ ValidString stderr = true.
Proof.
  rewrite FormatError_Unmarshal. split.
  - intros [= H1 H2 H3]. by rewrite <-!coerce_fixed.
  - intros (H1 & H2 & H3). by rewrite !coerce_valid.
Qed.

End Unmarshal.

(** C9, as stated, fails: [json.Marshal] coerces a string to valid UTF-8,
    so a byte that starts no well-formed rune, here the single byte 255, is
    written as an escaped U+FFFD and read back as the three bytes of
    U+FFFD. *)
Lemma C9_counterexample :
  let msg := String (chr 255) "" in
  ValidString msg = false ∧
  Unmarshal (FormatError (errorString msg) "" "")
  = Some (mkErrorResponse RuneError "" "") ∧
  Unmarshal (FormatError (errorString msg) "" "")
  ≠ Some (mkErrorResponse msg "" "").
Proof. split_and!; [vm_compute; reflexivity..|vm_compute; discriminate]. Qed.

(** C9, amended. When the error message, the command and the standard
    error text are well-formed UTF-8, [FormatError] returns a JSON text
    that reads back as an [ErrorResponse] with exactly these three strings;
    the object has the member [error], then the member [command] unless the
    command is empty, then the member [stderr] unless that text is empty,
    and no other member. *)
Theorem C9_FormatError_roundtrip (err : error) (command stderr : string) :
  ValidString (Error err) = true →
  ValidString command = true →
  ValidString stderr = true →
  Unmarshal (FormatError err command stderr)
  = Some (mkErrorResponse (Error err) command stderr) ∧
  read_object (FormatError err command stderr)
  = Some ([("error", Error err)]
          ++ (if decide (command = "") then [] else [("command", command)])
          ++ (if decide (stderr = "") then [] else [("stderr", stderr)])).
Proof.
  intros He Hc Hs.
  rewrite FormatError_Unmarshal, FormatError_read_object.
  rewrite !coerce_valid by done. split; [done|].
  by destruct command, stderr.
Qed.

(** ** The theorems at concrete builders *)

Lemma free_of_Command key e comps :
  Forall (λ c, has_prefix ("--" +:+ key +:+ "=") c = false) comps →
  free_of key (Command e comps).
Proof.
  intros Hc. split_and!.
  - by apply Forall_forall.
  - intros name value Hl. by destruct (lookup_empty_Some (M:=gmap string) name value).
  - intros name values value Hl.
    by destruct (lookup_empty_Some (M:=gmap string) name values).
  - intros name Hin. by apply elem_of_nil in Hin.
Qed.

Lemma free_of_WithBoolFlag key name b :
  has_prefix (key +:+ "=") name = false →
  free_of key b → free_of key (WithBoolFlag name b).
Proof.
  intros Hname (Hc & Hf & Ha & Hb). split_and!; try done.
  simpl. intros n [Hin| ->%list_elem_of_singleton]%elem_of_app; auto.
Qed.

(** C1 at a builder with one flag and one switch. *)
Lemma C1_Build_layout_witness :
  let b := WithBoolFlag "quiet"
             (WithFlag "limit" "5"
                (Command (New (mkConfig "P" "" "" "gcloud" 60)) ["run"; "list"])) in
  Builds b (Build b) ∧
  ∃ (fl : list (string * string)) (al : list (string * list string)),
    (NoDup fl ∧ ∀ name value, (name, value) ∈ fl ↔ flags b !! name = Some value) ∧
    (NoDup al ∧ ∀ name values,
                  (name, values) ∈ al ↔ arrayFlags b !! name = Some values) ∧
    Build b
    = components b
      ++ ((λ nv : string * string, "--" +:+ nv.1 +:+ "=" +:+ nv.2) <$> fl)
      ++ concat ((λ nvs : string * list string,
                    (λ value, "--" +:+ nvs.1 +:+ "=" +:+ value) <$> nvs.2)
                   <$> al)
      ++ ((λ flag, "--" +:+ flag) <$> boolFlags b)
      ++ (if decide (project b = "") then [] else ["--project=" +:+ project b])
      ++ (if decide (format b = "") then [] else ["--format=" +:+ format b]).
Proof.
  intros b. split.
  - exact (proj1 (C1_Build_layout b)).
  - apply (proj2 (C1_Build_layout b) (Build b)).
    exists (map_to_list (flags b)), (map_to_list (arrayFlags b)).
    split_and!; reflexivity.
Defined.

(** C3 with the projects [P] and [V]. *)
Lemma C3_project_inheritance_witness :
  let e := New (mkConfig "P" "us-central1" "" "gcloud" 60) in
  let cs := [CallWithRegion "eu"; CallWithProject ""; CallWithFlag "limit" "5"] in
  let b := apply_calls cs (Command e ["run"; "list"]) in
  Project (config e) = "P" ∧ "P" ≠ "" ∧ "V" ≠ "" ∧
  no_project_override cs ∧ no_project_override [CallWithBoolFlag "quiet"] ∧
  "--project=P" ∈ Build b ∧
  "--project=V" ∈ Build (apply_calls [CallWithBoolFlag "quiet"] (WithProject "V" b)) ∧
  "--project=P" ∈ Build (WithProject "" b).
Proof.
  intros e cs b.
  assert (no_project_override cs) as Hcs by (repeat constructor).
  assert (no_project_override [CallWithBoolFlag "quiet"]) as Hcs'
    by (repeat constructor).
  assert ("P" ≠ "") as HP by discriminate.
  assert ("V" ≠ "") as HV by discriminate.
  destruct (C3_project_inheritance e ["run"; "list"] cs [CallWithBoolFlag "quiet"]
              "P" "V" eq_refl HP HV Hcs Hcs') as (H1 & _ & H3 & H4).
  split_and!; [reflexivity|exact HP|exact HV|exact Hcs|exact Hcs'|..].
  - apply H1. exists (map_to_list (flags b)), (map_to_list (arrayFlags b)).
    split_and!; reflexivity.
  - apply H3. eexists _, _. split_and!; reflexivity.
  - apply H4. eexists _, _. split_and!; reflexivity.
Defined.


(** C5, amended, at builders without a flag named [format]. *)
Lemma C5_format_duality_witness :
  let e := New (mkConfig "p" "" "" "gcloud" 60) in
  let cs := [CallWithProject "q"; CallWithBoolFlag "quiet"] in
  let b := Command e ["secrets"; "versions"; "access"] in
  free_of "format" b ∧ no_format_call cs ∧
  free_of "format" (apply_calls cs (Command e ["run"; "list"])) ∧
  (∀ t, t ∈ Build (WithTextFormat b) → is_format_token t = false) ∧
  filter (λ t, is_format_token t = true)
         (Build (apply_calls cs (Command e ["run"; "list"])))
  = ["--format=json"].
Proof.
  intros e cs b.
  assert (free_of "format" b) as Hb.
  { apply free_of_Command. repeat constructor. }
  assert (no_format_call cs) as Hcs by (repeat constructor).
  assert (free_of "format" (apply_calls cs (Command e ["run"; "list"]))) as Hb'.
  { apply (free_of_WithBoolFlag "format" "quiet"
             (WithProject "q" (Command e ["run"; "list"]))); [reflexivity|].
    apply (free_of_Command "format" (New (mkConfig "q" "" "" "gcloud" 60))).
    repeat constructor. }
  destruct (C5_format_duality e ["run"; "list"] cs b) as [H1 H2].
  split_and!; [exact Hb|exact Hcs|exact Hb'|..].
  - apply (H1 Hb). eexists _, _. split_and!; reflexivity.
  - apply (H2 Hcs Hb'). eexists _, _. split_and!; reflexivity.
Defined.

(** C6 at an output that is not well-formed JSON. *)
Lemma C6_json_payload_witness :
  let run := λ _ : Cmd, mkOutput "  {bad json  " "warning" None in
  let b := Command (New (mkConfig "p" "" "" "gcloud" 60)) ["run"; "list"] in
  let r := mkResult (Some "{bad json") "  {bad json  " "warning" 0 in
  (Execute run [] [] b []).1 = (r, None) ∧
  (is_Some (JSON r) ↔ format b = "json" ∧ TrimSpace (Stdout r) ≠ "") ∧
  (∀ payload, JSON r = Some payload → payload = TrimSpace (Stdout r)).
Proof.
  intros run b r.
  assert ((Execute run [] [] b []).1 = (r, None)) as H by reflexivity.
  destruct (C6_json_payload run [] [] b [] r H) as (_ & H1 & H2 & _).
  split_and!; [exact H|exact H1|exact H2].
Defined.

(** C7, amended, at the value [B=2]. *)
Lemma C7_mutators_reapplied_witness :
  let b := WithArrayFlag "env" "A=1"
             (Command (New (mkConfig "p" "" "" "gcloud" 60)) ["run"; "deploy"]) in
  "B=2" ≠ "" ∧
  WithFlag "env" "B=2" (WithFlag "env" "B=2" b) = WithFlag "env" "B=2" b ∧
  arrayFlags (WithArrayFlag "env" "B=2" (WithArrayFlag "env" "B=2" b)) !! "env"
  = Some (default [] (arrayFlags b !! "env") ++ ["B=2"; "B=2"]).
Proof.
  intros b.
  assert ("B=2" ≠ "") as Hne by discriminate.
  destruct (C7_mutators_reapplied b "env" "B=2")
    as (_ & _ & _ & H4 & _ & _ & _ & _ & H9).
  split_and!; [exact Hne|exact H4|exact (H9 Hne)].
Defined.

(** C9, amended, at the scenario of the specification. *)
Lemma C9_FormatError_roundtrip_witness :
  ValidString "boom" = true ∧ ValidString "tool x y" = true ∧
  ValidString "denied" = true ∧
  Unmarshal (FormatError (errorString "boom") "tool x y" "denied")
  = Some (mkErrorResponse "boom" "tool x y" "denied") ∧
  read_object (FormatError (errorString "boom") "tool x y" "denied")
  = Some [("error", "boom"); ("command", "tool x y"); ("stderr", "denied")].
Proof.
  destruct (C9_FormatError_roundtrip (errorString "boom") "tool x y" "denied"
              eq_refl eq_refl eq_refl) as [H1 H2].
  split_and!; [reflexivity|reflexivity|reflexivity|exact H1|exact H2].
Defined.

(** C10, amended, at a builder without a flag named [format]. *)
Lemma C10_WithFormat_empty_witness :
  let b := WithBoolFlag "quiet"
             (Command (New (mkConfig "p" "" "" "gcloud" 60)) ["run"; "list"]) in
  free_of "format" b ∧
  WithFormat "" b = WithTextFormat b ∧
  ∀ t, t ∈ Build (WithFormat "" b) → is_format_token t = false.
Proof.
  intros b.
  assert (free_of "format" b) as Hfree.
  { apply free_of_WithBoolFlag; [reflexivity|].
    apply free_of_Command. repeat constructor. }
  destruct (C10_WithFormat_empty b) as (H1 & _ & _ & _ & H5).
  split_and!; [exact Hfree|exact H1|].
  apply (H5 Hfree). eexists _, _. split_and!; reflexivity.
Defined.

(* ================================================================== *)
(** * Further properties of the builder *)

Section Chains.

Implicit Types (b : CommandBuilder) (cs : list Call) (c : Call).

Lemma apply_calls_app cs cs' b :
  apply_calls (cs ++ cs') b = apply_calls cs' (apply_calls cs b).
Proof. unfold apply_calls. by rewrite foldl_app. Qed.

Lemma flags_apply_calls cs b name :
  flags (apply_calls cs b) !! name
  = match last (flag_writes name cs) with
    | Some v => Some v
    | None => flags b !! name
    end.
Proof.
  induction cs as [|c cs IH] using rev_ind; [done|].
  rewrite apply_calls_snoc. unfold flag_writes in *. rewrite omap_app.
  destruct c as [p|r|z|n v|n v|n|f|]; simpl;
    unfold WithProject, WithRegion, WithZone, WithFlag, WithArrayFlag;
    rewrite ?app_nil_r; try done; try by destruct (nonempty _).
  destruct (decide (n = name)) as [->|Hne], (nonempty v) eqn:Hv; simpl;
    rewrite ?app_nil_r; try done.
  - by rewrite last_snoc, lookup_insert_eq.
  - by rewrite lookup_insert_ne.
Qed.

Lemma arrayFlags_apply_calls cs b name :
  default [] (arrayFlags (apply_calls cs b) !! name)
  = default [] (arrayFlags b !! name) ++ array_writes name cs.
Proof.
  induction cs as [|c cs IH] using rev_ind; [by rewrite app_nil_r|].
  rewrite apply_calls_snoc. unfold array_writes in *. rewrite omap_app.
  destruct c as [p|r|z|n v|n v|n|f|]; simpl;
    unfold WithProject, WithRegion, WithZone, WithFlag, WithArrayFlag;
    rewrite ?app_nil_r; try done; try by destruct (nonempty _).
  destruct (decide (n = name)) as [->|Hne], (nonempty v) eqn:Hv; simpl;
    rewrite ?app_nil_r; try done.
  - rewrite lookup_insert_eq. simpl. by rewrite IH, <-app_assoc.
  - by rewrite lookup_insert_ne.
Qed.

Lemma boolFlags_apply_calls cs b :
  boolFlags (apply_calls cs b) = boolFlags b ++ bool_writes cs.
Proof.
  induction cs as [|c cs IH] using rev_ind; [by rewrite app_nil_r|].
  rewrite apply_calls_snoc. unfold bool_writes in *. rewrite omap_app.
  destruct c as [p|r|z|n v|n v|n|f|]; simpl;
    unfold WithProject, WithRegion, WithZone, WithFlag, WithArrayFlag;
    rewrite ?app_nil_r; try done; try by destruct (nonempty _).
  by rewrite IH, <-app_assoc.
Qed.

End Chains.

Section ChainFields.

Implicit Types (b : CommandBuilder) (cs : list Call) (c : Call).

Lemma arrayFlags_apply_calls_lookup cs b name :
  arrayFlags (apply_calls cs b) !! name
  = if decide (array_writes name cs = []) then arrayFlags b !! name
    else Some (default [] (arrayFlags b !! name) ++ array_writes name cs).
Proof.
  induction cs as [|c cs IH] using rev_ind; [done|].
  pose proof (arrayFlags_apply_calls cs b name) as Hd.
  rewrite apply_calls_snoc. unfold array_writes in *. rewrite omap_app.
  destruct c as [p|r|z|n v|n v|n|f|]; simpl;
    unfold WithProject, WithRegion, WithZone, WithFlag, WithArrayFlag;
    rewrite ?app_nil_r; try done; try by destruct (nonempty _).
  destruct (decide (n = name)) as [->|Hne], (nonempty v) eqn:Hv; simpl;
    rewrite ?app_nil_r; try done.
  - rewrite lookup_insert_eq, Hd.
    rewrite decide_False by (by intros ?%app_eq_nil; destruct_and!).
    by rewrite <-app_assoc.
  - by rewrite lookup_insert_ne.
Qed.

Lemma scope_apply_calls cs b :
  project (apply_calls cs b) = default (project b) (last (project_writes cs)) ∧
  region (apply_calls cs b) = default (region b) (last (region_writes cs)) ∧
  zone (apply_calls cs b) = default (zone b) (last (zone_writes cs)) ∧
  format (apply_calls cs b) = default (format b) (last (format_writes cs)).
Proof.
  induction cs as [|c cs (IH1 & IH2 & IH3 & IH4)] using rev_ind; [done|].
  rewrite apply_calls_snoc.
  unfold project_writes, region_writes, zone_writes, format_writes in *.
  rewrite !omap_app.
  destruct c as [p|r|z|n v|n v|n|f|]; simpl;
    unfold WithProject, WithRegion, WithZone, WithFlag, WithArrayFlag;
    rewrite ?app_nil_r; try done;
    try (by destruct (nonempty _) eqn:Hv; simpl; rewrite ?app_nil_r, ?last_snoc);
    by rewrite ?last_snoc.
Qed.

Lemma flags_nonempty_Command e comps : flags_nonempty (Command e comps).
Proof.
  split.
  - intros name value Hl.
    by destruct (lookup_empty_Some (M:=gmap string) name value).
  - intros name values Hl.
    by destruct (lookup_empty_Some (M:=gmap string) name values).
Qed.

Lemma flags_nonempty_apply_call c b :
  flags_nonempty b → flags_nonempty (apply_call c b).
Proof.
  intros [Hf Ha].
  destruct c as [p|r|z|n v|n v|n|f|]; simpl;
    unfold WithProject, WithRegion, WithZone, WithFlag, WithArrayFlag;
    try done; try by destruct (nonempty _).
  - destruct (nonempty v) eqn:Hv; [|done]. apply nonempty_true in Hv.
    split; [|done]. simpl. intros name value.
    rewrite lookup_insert. case_decide; [by intros [= <-]|by apply Hf].
  - destruct (nonempty v) eqn:Hv; [|done]. apply nonempty_true in Hv.
    split; [done|]. simpl. intros name values.
    rewrite lookup_insert. case_decide; [|by apply Ha].
    intros [= <-]. split; [by intros ?%app_eq_nil; destruct_and!|].
    intros value [Hin| ->%list_elem_of_singleton]%elem_of_app; [|done].
    destruct (arrayFlags b !! n) as [vs|] eqn:Hl; simpl in Hin.
    + by apply (Ha n vs Hl).
    + by apply elem_of_nil in Hin.
Qed.

Lemma flags_nonempty_apply_calls cs b :
  flags_nonempty b → flags_nonempty (apply_calls cs b).
Proof.
  induction cs as [|c cs IH] using rev_ind; [done|].
  intros Hb. rewrite apply_calls_snoc. by apply flags_nonempty_apply_call, IH.
Qed.

End ChainFields.

(** X1. After any chain of calls, the value of a flag is the last value
    that is not empty among those the chain gave to [WithFlag] for that
    name; when there is none, the flag is as it was before the chain, and
    absent on a builder that comes from [Command]. *)
Theorem X1_flag_last_write (e : Executor) (comps : list string)
    (b : CommandBuilder) (cs : list Call) (name : string) :
  flags (apply_calls cs b) !! name
  = match last (flag_writes name cs) with
    | Some value => Some value
    | None => flags b !! name
    end ∧
  flags (apply_calls cs (Command e comps)) !! name = last (flag_writes name cs).
Proof.
  split; [apply flags_apply_calls|].
  rewrite flags_apply_calls. by destruct (last _).
Qed.

(** X2. After any chain of calls, the values of an array flag are those it
    had before, followed by the values that are not empty among those the
    chain gave to [WithArrayFlag] for that name, in call order and with
    their repetitions; the names given to [WithBoolFlag] are appended to
    the switches in the same way.  On a builder that comes from [Command]
    an array flag is present exactly when the chain gave it such a
    value. *)
Theorem X2_array_and_bool_flags_accumulate (e : Executor) (comps : list string)
    (b : CommandBuilder) (cs : list Call) (name : string) :
  default [] (arrayFlags (apply_calls cs b) !! name)
  = default [] (arrayFlags b !! name) ++ array_writes name cs ∧
  arrayFlags (apply_calls cs (Command e comps)) !! name
  = (if decide (array_writes name cs = []) then None
     else Some (array_writes name cs)) ∧
  boolFlags (apply_calls cs b) = boolFlags b ++ bool_writes cs.
Proof.
  split_and!.
  - apply arrayFlags_apply_calls.
  - by rewrite arrayFlags_apply_calls_lookup.
  - apply boolFlags_apply_calls.
Qed.

(** X3. After any chain of calls, [GetProject], [GetRegion] and [GetZone]
    return the last override that is not empty, and the value before the
    chain, for [Command] the one of the configuration, when there is none;
    the format is the last one that was set, empty or not. *)
Theorem X3_scope_last_override (e : Executor) (comps : list string)
    (cs : list Call) :
  let b := apply_calls cs (Command e comps) in
  GetProject b = default (Project (config e)) (last (project_writes cs)) ∧
  GetRegion b = default (Region (config e)) (last (region_writes cs)) ∧
  GetZone b = default (Zone (config e)) (last (zone_writes cs)) ∧
  format b = default "json" (last (format_writes cs)).
Proof. apply scope_apply_calls. Qed.

(** X4. On every builder that comes from [Command] by a chain of calls, no
    flag holds the empty string, and every array flag that is present
    holds at least one value, none of them empty. *)
Theorem X4_no_empty_flag_value (e : Executor) (comps : list string)
    (cs : list Call) :
  let b := apply_calls cs (Command e comps) in
  (∀ name value, flags b !! name = Some value → value ≠ "") ∧
  (∀ name values,
     arrayFlags b !! name = Some values →
     values ≠ [] ∧ ∀ value, value ∈ values → value ≠ "").
Proof. apply flags_nonempty_apply_calls, flags_nonempty_Command. Qed.

(** X5. Two calls that write different parts of the builder state (two
    different scope fields, flags of different names, a flag and a
    switch, ...) can be exchanged: both orders give the same builder. *)
Theorem X5_calls_commute (c1 c2 : Call) (b : CommandBuilder) :
  written c1 ≠ written c2 →
  apply_call c1 (apply_call c2 b) = apply_call c2 (apply_call c1 b).
Proof.
  intros Hne.
  destruct c1 as [p1|r1|z1|n1 v1|n1 v1|n1|f1|],
           c2 as [p2|r2|z2|n2 v2|n2 v2|n2|f2|];
    simpl in *; try done;
    unfold WithProject, WithRegion, WithZone, WithFlag, WithArrayFlag;
    repeat match goal with
           | |- context [nonempty ?s] => destruct (nonempty s) eqn:?; simpl
           end; try done.
  - assert (n1 ≠ n2) by congruence.
    unfold set_flags; simpl. f_equal. by apply insert_insert_ne.
  - assert (n1 ≠ n2) as Hn by congruence.
    unfold set_arrayFlags; simpl. f_equal.
    rewrite !lookup_insert_ne by done. by apply insert_insert_ne.
Qed.

Lemma X5_calls_commute_witness :
  let b := Command (New (mkConfig "p" "" "" "gcloud" 60)) ["run"; "deploy"] in
  written (CallWithFlag "image" "i") ≠ written (CallWithFlag "memory" "512Mi") ∧
  WithFlag "image" "i" (WithFlag "memory" "512Mi" b)
  = WithFlag "memory" "512Mi" (WithFlag "image" "i" b).
Proof.
  intros b.
  assert (written (CallWithFlag "image" "i") ≠ written (CallWithFlag "memory" "512Mi"))
    as Hne by discriminate.
  split; [exact Hne|].
  exact (X5_calls_commute (CallWithFlag "image" "i")
           (CallWithFlag "memory" "512Mi") b Hne).
Defined.

Section Determinism.

Lemma Permutation_short {A} (l l' : list A) :
  l ≡ₚ l' → length l' ≤ 1 → l = l'.
Proof.
  intros Hp Hlen. destruct l' as [|x [|y l']]; simpl in Hlen; [| |lia].
  - by apply Permutation_nil_r.
  - by apply Permutation_singleton_r.
Qed.

Lemma BuildWith_components fl al b :
  take (length (components b)) (BuildWith fl al b) = components b.
Proof. rewrite BuildWith_layout. by rewrite take_app_length. Qed.

End Determinism.

(** X6. Two runs of [Build] on the same builder return the same tokens,
    possibly in another order: the two lists are permutations of each
    other, have the same length and both begin with the components.  With
    at most one flag and at most one array flag the list itself is the
    same in every run. *)
Theorem X6_Build_determinism (b : CommandBuilder) (args1 args2 : list string) :
  Builds b args1 → Builds b args2 →
  args1 ≡ₚ args2 ∧
  length args1 = length args2 ∧
  take (length (components b)) args1 = components b ∧
  take (length (components b)) args2 = components b ∧
  (size (flags b) ≤ 1 → size (arrayFlags b) ≤ 1 → args1 = args2).
Proof.
  intros (fl1 & al1 & Hf1 & Ha1 & ->) (fl2 & al2 & Hf2 & Ha2 & ->).
  assert (BuildWith fl1 al1 b ≡ₚ BuildWith fl2 al2 b) as Hp.
  { apply BuildWith_Permutation; by etrans. }
  split_and!; [done|by rewrite Hp|apply BuildWith_components..|].
  intros Hsf Hsa.
  rewrite (Permutation_short fl1 (map_to_list (flags b))),
          (Permutation_short fl2 (map_to_list (flags b))),
          (Permutation_short al1 (map_to_list (arrayFlags b))),
          (Permutation_short al2 (map_to_list (arrayFlags b)));
    by rewrite ?length_map_to_list.
Qed.

Lemma X6_Build_determinism_witness :
  let b := WithArrayFlag "env" "B=2"
             (WithArrayFlag "env" "A=1"
                (WithFlag "limit" "5"
                   (Command (New (mkConfig "p" "" "" "gcloud" 60)) ["run"; "list"]))) in
  Builds b (Build b) ∧ size (flags b) ≤ 1 ∧ size (arrayFlags b) ≤ 1 ∧
  Build b ≡ₚ Build b ∧
  take (length (components b)) (Build b) = ["run"; "list"].
Proof.
  intros b.
  assert (Builds b (Build b)) as HB by apply Builds_Build.
  destruct (X6_Build_determinism b (Build b) (Build b) HB HB)
    as (H1 & _ & H3 & _ & _).
  split_and!; [exact HB|vm_compute; lia|vm_compute; lia|exact H1|exact H3].
Defined.

(* ================================================================== *)
(** * Further properties of the execution *)

Section Injection.

Variable run : Cmd → Output.

Implicit Types (b : CommandBuilder) (key v : string).




End Injection.





(** X9. [Execute] returns an error exactly when running the command gave
    one.  The result then carries the two captured outputs, no JSON
    payload whatever the format and the standard output, and the exit
    code of an [*exec.ExitError], zero for any other error; the message of
    the error ends with the captured standard error.  Exactly one command
    is started in both cases. *)
Theorem X9_Execute_failure (run : Cmd → Output) (fl : list (string * string))
    (al : list (string * list string)) (b : CommandBuilder) (log : list Cmd) :
  let cmd := mkCmd (GCloudPath (config (executor b))) (BuildWith fl al b)
                   (CommandTimeout (config (executor b))) in
  (Execute run fl al b log).2 = log ++ [cmd] ∧
  ((Execute run fl al b log).1.2 = None ↔ out_err (run cmd) = None) ∧
  (out_err (run cmd) = None → ExitCode (Execute run fl al b log).1.1 = 0%Z) ∧
  ∀ e, out_err (run cmd) = Some e →
    (Execute run fl al b log).1
    = (mkResult None (out_stdout (run cmd)) (out_stderr (run cmd))
                (match e with ExitError code _ => code | OtherError _ => 0%Z end),
       Some (errorString ("gcloud command failed: " +:+ RunError_Error e
                          +:+ newline +:+ "stderr: " +:+ out_stderr (run cmd)))).
Proof.
  intros cmd. rewrite Execute_log, Execute_result. fold cmd.
  split; [done|].
  destruct (out_err (run cmd)) as [e|]; simpl.
  - split_and!; [by split|done|by intros ? [= <-]].
  - split_and!; done.
Qed.

(** X9 at a process that exits with status 2. *)
Lemma X9_Execute_failure_witness :
  let run := λ _ : Cmd,
    mkOutput "{}" "ERROR: permission denied" (Some (ExitError 2 "exit status 2")) in
  let b := Command (New (mkConfig "" "" "" "gcloud" 60)) ["run"; "list"] in
  out_err (run (mkCmd "gcloud" ["run"; "list"; "--format=json"] 60))
  = Some (ExitError 2 "exit status 2") ∧
  (Execute run [] [] b []).1
  = (mkResult None "{}" "ERROR: permission denied" 2,
     Some (errorString ("gcloud command failed: exit status 2" +:+ newline
                        +:+ "stderr: ERROR: permission denied"))).
Proof.
  intros run b. split; [reflexivity|].
  exact (proj2 (proj2 (proj2 (X9_Execute_failure run [] [] b [])))
               (ExitError 2 "exit status 2") eq_refl).
Defined.

(** X10. The result of [Execute], with or without error, is empty in the
    sense of [IsEmpty] exactly when the captured standard output is the
    empty string: an output made of white space only gives a result that
    is not empty, although it has no JSON payload. *)
Theorem X10_IsEmpty_after_Execute (run : Cmd → Output)
    (fl : list (string * string)) (al : list (string * list string))
    (b : CommandBuilder) (log : list Cmd) :
  let r := (Execute run fl al b log).1.1 in
  (IsEmpty r = true ↔ Stdout r = "") ∧
  (Stdout r ≠ "" → TrimSpace (Stdout r) = "" → JSON r = None ∧ IsEmpty r = false).
Proof.
  intros r. unfold r. rewrite Execute_result.
  set (out := run _).
  destruct (out_err out) as [e|]; simpl; unfold IsEmpty; simpl.
  - rewrite negb_true_iff, nonempty_false. split; [done|].
    intros Hne _. by apply nonempty_true in Hne as ->.
  - destruct (String.eqb (format b) "json" && nonempty (out_stdout out)
              && nonempty (TrimSpace (out_stdout out))) eqn:Hj; simpl.
    + apply andb_true_iff in Hj as [[_ Hout%nonempty_true]%andb_true_iff
                                      Htrim%nonempty_true].
      split; [by split|]. done.
    + rewrite negb_true_iff, nonempty_false. split; [done|].
      intros Hne _. by apply nonempty_true in Hne as ->.
Qed.

(** X10 at an output of two spaces. *)
Lemma X10_IsEmpty_after_Execute_witness :
  let run := λ _ : Cmd, mkOutput "  " "" None in
  let b := Command (New (mkConfig "" "" "" "gcloud" 60)) ["run"; "list"] in
  let r := (Execute run [] [] b []).1.1 in
  Stdout r ≠ "" ∧ TrimSpace (Stdout r) = "" ∧ JSON r = None ∧ IsEmpty r = false.
Proof.
  intros run b r.
  assert (Stdout r ≠ "") as H1 by discriminate.
  assert (TrimSpace (Stdout r) = "") as H2 by reflexivity.
  destruct (proj2 (X10_IsEmpty_after_Execute run [] [] b []) H1 H2) as [H3 H4].
  split_and!; [exact H1|exact H2|exact H3|exact H4].
Defined.

(** X11. For the result of an [Execute] that returned no error,
    [ToJSONString] is: the indented payload when the format is ["json"],
    the trimmed standard output is not empty and [json.Indent] accepts it;
    that trimmed output itself when [json.Indent] refuses it; and in every
    other case, in particular after [WithTextFormat], the standard output
    as captured, white space included. *)
Theorem X11_ToJSONString_after_Execute (run : Cmd → Output)
    (Indent : string → option string) (fl : list (string * string))
    (al : list (string * list string)) (b : CommandBuilder) (log : list Cmd)
    (r : Result) :
  (Execute run fl al b log).1 = (r, None) →
  ToJSONString Indent r
  = (if String.eqb (format b) "json" && nonempty (TrimSpace (Stdout r))
     then default (TrimSpace (Stdout r)) (Indent (TrimSpace (Stdout r)))
     else Stdout r) ∧
  (format b ≠ "json" → ToJSONString Indent r = Stdout r).
Proof.
  rewrite Execute_result. set (out := run _).
  destruct (out_err out) as [e|]; [done|]. intros [= <-].
  unfold ToJSONString. simpl.
  assert (nonempty (out_stdout out) = false →
          nonempty (TrimSpace (out_stdout out)) = false) as Hempty.
  { intros ->%nonempty_false. reflexivity. }
  destruct (String.eqb_spec (format b) "json") as [Hfmt|Hfmt]; simpl.
  - split; [|done].
    destruct (nonempty (out_stdout out)); simpl.
    + destruct (nonempty (TrimSpace (out_stdout out))); [|done].
      by destruct (Indent _).
    + by rewrite Hempty.
  - done.
Qed.

(** X11 at a text-format execution. *)
Lemma X11_ToJSONString_after_Execute_witness :
  let run := λ _ : Cmd, mkOutput " secret value " "" None in
  let b := WithTextFormat
             (Command (New (mkConfig "" "" "" "gcloud" 60)) ["secrets"; "access"]) in
  let r := mkResult None " secret value " "" 0 in
  (Execute run [] [] b []).1 = (r, None) ∧ format b ≠ "json" ∧
  ToJSONString (λ _, None) r = " secret value ".
Proof.
  intros run b r.
  assert ((Execute run [] [] b []).1 = (r, None)) as H by reflexivity.
  assert (format b ≠ "json") as Hf by discriminate.
  split_and!; [exact H|exact Hf|].
  exact (proj2 (X11_ToJSONString_after_Execute run (λ _, None) [] [] b [] r H) Hf).
Defined.

(** X12. For the result of an [Execute], [ParseJSON] hands the trimmed
    standard output to [json.Unmarshal] when no error was returned, the
    format is ["json"] and that trimmed output is not empty; in every
    other case, in particular after an error or after [WithTextFormat], it
    returns the error [no JSON output available] and [json.Unmarshal] is
    not asked. *)
Theorem X12_ParseJSON_after_Execute (run : Cmd → Output)
    (unmarshal : string → option error) (fl : list (string * string))
    (al : list (string * list string)) (b : CommandBuilder) (log : list Cmd) :
  let r := (Execute run fl al b log).1.1 in
  let err := (Execute run fl al b log).1.2 in
  ParseJSON unmarshal r
  = if bool_decide (err = None) && String.eqb (format b) "json"
       && nonempty (TrimSpace (Stdout r))
    then unmarshal (TrimSpace (Stdout r))
    else Some (errorString "no JSON output available").
Proof.
  intros r err. unfold r, err. rewrite Execute_result. set (out := run _).
  unfold ParseJSON.
  assert (nonempty (out_stdout out) = false →
          nonempty (TrimSpace (out_stdout out)) = false) as Hempty.
  { intros ->%nonempty_false. reflexivity. }
  destruct (out_err out) as [e|]; simpl; [done|].
  destruct (String.eqb (format b) "json"); simpl; [|done].
  destruct (nonempty (out_stdout out)); simpl.
  - by destruct (nonempty (TrimSpace (out_stdout out))).
  - by rewrite Hempty.
Qed.

Section Trimmed.

Implicit Types (s : string) (c : ascii).

Lemma rev_app_append s1 s2 : String.rev_app s1 s2 = String.rev s1 +:+ s2.
Proof.
  unfold String.rev. revert s2.
  induction s1 as [|a s1 IH]; intros s2; simpl; [done|].
  rewrite (IH (String a s2)), (IH (String a "")).
  by rewrite append_assoc.
Qed.

Lemma rev_cons a s : String.rev (String a s) = String.rev s +:+ String a "".
Proof. unfold String.rev at 1. simpl. apply rev_app_append. Qed.

Lemma append_nil_r s : s +:+ "" = s.
Proof. induction s as [|a s IH]; [done|]. by rewrite append_cons, IH. Qed.

Lemma rev_append s1 s2 :
  String.rev (s1 +:+ s2) = String.rev s2 +:+ String.rev s1.
Proof.
  induction s1 as [|a s1 IH].
  - by rewrite append_nil_l, append_nil_r.
  - by rewrite append_cons, !rev_cons, IH, append_assoc.
Qed.

Lemma rev_involutive s : String.rev (String.rev s) = s.
Proof.
  induction s as [|a s IH]; [done|].
  by rewrite rev_cons, rev_append, IH.
Qed.

Lemma last_byte_snoc s c : last_byte (s +:+ String c "") = Some c.
Proof.
  induction s as [|a s IH]; [done|].
  rewrite append_cons. simpl. rewrite IH.
  by destruct (s +:+ String c "") eqn:E; [destruct s|].
Qed.

Lemma last_byte_rev s : last_byte (String.rev s) = first_byte s.
Proof. destruct s as [|a s]; [done|]. rewrite rev_cons. apply last_byte_snoc. Qed.

(** What [trim_front] returns is the end of its argument and does not
    begin with an ASCII white-space character. *)
Lemma trim_front_bounded (n : nat) fwd s :
  String.length s ≤ n →
  (∃ d, s = d +:+ trim_front fwd s) ∧
  (∀ c, first_byte (trim_front fwd s) = Some c → asciiSpace c = false).
Proof.
  revert s. induction n as [|n IH]; intros [|c1 s1] Hlen; simpl in Hlen;
    try lia; [by split; [exists ""|]..|].
  assert (∀ d s', String c1 s1 = d +:+ s' → String.length s' ≤ n →
            (∃ d', String c1 s1 = d' +:+ trim_front fwd s') ∧
            (∀ c, first_byte (trim_front fwd s') = Some c → asciiSpace c = false))
    as Hrec.
  { intros d s' Heq Hs'. destruct (IH s' Hs') as [[d' Hd'] Hfirst].
    split; [|done]. exists (d +:+ d'). by rewrite append_assoc, <-Hd'. }
  assert ((∃ d, String c1 s1 = d +:+ String c1 s1) ∧
          (asciiSpace c1 = false →
           ∀ c, first_byte (String c1 s1) = Some c → asciiSpace c = false))
    as [Hsame Hfirst].
  { split; [by exists ""|]. by intros ? ? [= <-]. }
  simpl. destruct (asciiSpace c1) eqn:Hc1.
  { apply (Hrec (String c1 "")); [done|lia]. }
  specialize (Hfirst eq_refl).
  destruct s1 as [|c2 s2]; [done|]. simpl in Hlen.
  destruct (if fwd then space2 c1 c2 else space2 c2 c1).
  { apply (Hrec (String c1 (String c2 ""))); [done|lia]. }
  destruct s2 as [|c3 s3]; [done|]. simpl in Hlen.
  destruct (if fwd then space3 c1 c2 c3 else space3 c3 c2 c1); [|done].
  apply (Hrec (String c1 (String c2 (String c3 "")))); [done|lia].
Qed.

Lemma trim_front_suffix fwd s : ∃ d, s = d +:+ trim_front fwd s.
Proof. by apply (trim_front_bounded (String.length s)). Qed.

Lemma trim_front_first fwd s c :
  first_byte (trim_front fwd s) = Some c → asciiSpace c = false.
Proof. by apply (trim_front_bounded (String.length s)). Qed.

Lemma first_byte_append s1 s2 :
  s1 ≠ "" → first_byte (s1 +:+ s2) = first_byte s1.
Proof. by destruct s1. Qed.

(** [TrimSpace] returns a string that neither begins nor ends with an
    ASCII white-space character. *)
Lemma TrimSpace_ends s :
  (∀ c, first_byte (TrimSpace s) = Some c → asciiSpace c = false) ∧
  (∀ c, last_byte (TrimSpace s) = Some c → asciiSpace c = false).
Proof.
  unfold TrimSpace. set (t := trim_front true s).
  set (u := trim_front false (String.rev t)). split.
  - intros c Hc.
    destruct (trim_front_suffix false (String.rev t)) as [d Hd]. fold u in Hd.
    assert (t = String.rev u +:+ String.rev d) as Ht.
    { by rewrite <-rev_append, <-Hd, rev_involutive. }
    destruct (String.rev u) as [|a w] eqn:Hu; [done|].
    simpl in Hc. injection Hc as ->.
    apply (trim_front_first true s). fold t. by rewrite Ht.
  - intros c. rewrite last_byte_rev. apply trim_front_first.
Qed.

End Trimmed.

(** X13. The JSON payload of a result of [Execute], when there is one, is
    not empty and neither begins nor ends with one of the six ASCII
    white-space characters (tab, line feed, vertical tab, form feed,
    carriage return, space). *)
Theorem X13_payload_trimmed (run : Cmd → Output) (fl : list (string * string))
    (al : list (string * list string)) (b : CommandBuilder) (log : list Cmd)
    (payload : string) :
  JSON (Execute run fl al b log).1.1 = Some payload →
  payload ≠ "" ∧
  (∀ c, first_byte payload = Some c → asciiSpace c = false) ∧
  (∀ c, last_byte payload = Some c → asciiSpace c = false).
Proof.
  rewrite Execute_result. set (out := run _).
  destruct (out_err out) as [e|]; simpl; [by destruct e|].
  destruct (String.eqb (format b) "json" && nonempty (out_stdout out)
            && nonempty (TrimSpace (out_stdout out))) eqn:Hj; [|done].
  intros [= <-].
  apply andb_true_iff in Hj as [_ Htrim%nonempty_true].
  split; [done|]. apply TrimSpace_ends.
Qed.

(** X13 at an output with white space on both sides. *)
Lemma X13_payload_trimmed_witness :
  let run := λ _ : Cmd,
    mkOutput (String "010" (" [1, 2] " +:+ String "009" "")) "" None in
  let b := Command (New (mkConfig "" "" "" "gcloud" 60)) ["run"; "list"] in
  JSON (Execute run [] [] b []).1.1 = Some "[1, 2]" ∧
  "[1, 2]" ≠ "" ∧
  (∀ c, first_byte "[1, 2]" = Some c → asciiSpace c = false).
Proof.
  intros run b.
  assert (JSON (Execute run [] [] b []).1.1 = Some "[1, 2]") as H by reflexivity.
  destruct (X13_payload_trimmed run [] [] b [] "[1, 2]" H) as (H1 & H2 & _).
  split_and!; [exact H|exact H1|exact H2].
Defined.

(* ================================================================== *)
(** * Further properties of [FormatError] *)

(** X14. For every error message, command and standard error text, what
    [FormatError] returns reads back as the three strings coerced to
    well-formed UTF-8, each byte that starts no well-formed rune having
    become U+FFFD; a coerced string is never shorter than the string, and
    the three strings read back unchanged exactly when all three are
    well-formed UTF-8. *)
Theorem X14_FormatError_coerces (err : error) (command stderr : string) :
  Unmarshal (FormatError err command stderr)
  = Some (mkErrorResponse (coerce (Error err)) (coerce command) (coerce stderr)) ∧
  String.length stderr ≤ String.length (coerce stderr) ∧
  (Unmarshal (FormatError err command stderr)
   = Some (mkErrorResponse (Error err) command stderr)
   ↔ ValidString (Error err) = true ∧ ValidString command = true
     ∧ ValidString stderr = true).
Proof.
  split_and!.
  - apply FormatError_Unmarshal.
  - by apply (coerce_length_bounded (String.length stderr)).
  - rewrite FormatError_Unmarshal. split.
    + intros [= H1 H2 H3]. by rewrite <-!coerce_fixed.
    + intros (H1 & H2 & H3). by rewrite !coerce_valid.
Qed.

Section SafeText.

Implicit Types (s enc : string) (c : ascii).
















End SafeText.


(** X4 at a chain with a flag and an array flag. *)
Lemma X4_no_empty_flag_value_witness :
  let b := apply_calls [CallWithFlag "limit" "5"; CallWithArrayFlag "env" "A=1";
                        CallWithFlag "filter" ""]
                       (Command (New (mkConfig "p" "" "" "gcloud" 60)) ["run"]) in
  flags b !! "limit" = Some "5" ∧ "5" ≠ "" ∧
  arrayFlags b !! "env" = Some ["A=1"] ∧ ["A=1"] ≠ [].
Proof.
  intros b.
  destruct (X4_no_empty_flag_value (New (mkConfig "p" "" "" "gcloud" 60)) ["run"]
              [CallWithFlag "limit" "5"; CallWithArrayFlag "env" "A=1";
               CallWithFlag "filter" ""]) as [H1 H2].
  assert (flags b !! "limit" = Some "5") as Hl by reflexivity.
  assert (arrayFlags b !! "env" = Some ["A=1"]) as Ha by reflexivity.
  split_and!; [exact Hl|exact (H1 "limit" "5" Hl)|exact Ha
              |exact (proj1 (H2 "env" ["A=1"] Ha))].
Defined.

(* ================================================================== *)
(** * Properties of the environment readers and of the argument getters *)

(** X16. [getEnv] returns the value of the variable when it is not empty
    and the default otherwise, so a default that is not empty is never
    replaced by the empty string.  [getDurationEnv] returns the default
    when the variable is unset or empty or when [time.ParseDuration]
    refuses its value, and otherwise the parsed duration, whatever it is:
    zero and negative durations are not refused. *)
Theorem X16_environment_fallback (Getenv : string → string)
    (ParseDuration : string → option Z) (key defaultVal : string)
    (defaultDuration : Z) :
  (Getenv key ≠ "" → getEnv Getenv key defaultVal = Getenv key) ∧
  (Getenv key = "" → getEnv Getenv key defaultVal = defaultVal) ∧
  (defaultVal ≠ "" → getEnv Getenv key defaultVal ≠ "") ∧
  (getEnv Getenv key defaultVal = defaultVal
   ↔ Getenv key = "" ∨ Getenv key = defaultVal) ∧
  (∀ d, Getenv key ≠ "" → ParseDuration (Getenv key) = Some d →
        getDurationEnv Getenv ParseDuration key defaultDuration = d) ∧
  (Getenv key = "" ∨ ParseDuration (Getenv key) = None →
   getDurationEnv Getenv ParseDuration key defaultDuration = defaultDuration).
Proof.
  unfold getEnv, getDurationEnv.
  destruct (nonempty (Getenv key)) eqn:Hv.
  - apply nonempty_true in Hv. split_and!.
    + done.
    + done.
    + done.
    + split; [by right|]. by intros [?|?].
    + by intros d _ ->.
    + intros [? | ->]; done.
  - apply nonempty_false in Hv. rewrite Hv. split_and!; try done.
    split; [by left|done].
Qed.

(** X16 at [GCLOUD_PROJECT] set to [custom], [GCLOUD_PATH] set to the
    empty string and [GCLOUD_TIMEOUT] set to a negative duration. *)
Lemma X16_environment_fallback_witness :
  let Getenv := λ key : string,
    if String.eqb key "GCLOUD_TIMEOUT" then "-5m"
    else if String.eqb key "GCLOUD_PROJECT" then "custom" else "" in
  let ParseDuration := λ s : string,
    if String.eqb s "-5m" then Some (-300000000000)%Z else None in
  Getenv "GCLOUD_PROJECT" ≠ "" ∧
  getEnv Getenv "GCLOUD_PROJECT" "default" = "custom" ∧
  "gcloud" ≠ "" ∧ getEnv Getenv "GCLOUD_PATH" "gcloud" ≠ "" ∧
  Getenv "GCLOUD_TIMEOUT" ≠ "" ∧
  getDurationEnv Getenv ParseDuration "GCLOUD_TIMEOUT" 300000000000
  = (-300000000000)%Z.
Proof.
  intros Getenv ParseDuration.
  assert (Getenv "GCLOUD_PROJECT" ≠ "") as H0 by discriminate.
  assert ("gcloud" ≠ "") as H1 by discriminate.
  assert (Getenv "GCLOUD_TIMEOUT" ≠ "") as H2 by discriminate.
  split_and!; [exact H0| |exact H1| |exact H2|].
  - exact (proj1 (X16_environment_fallback Getenv ParseDuration "GCLOUD_PROJECT"
                    "default" 0) H0).
  - exact (proj1 (proj2 (proj2 (X16_environment_fallback Getenv ParseDuration
                    "GCLOUD_PATH" "gcloud" 0))) H1).
  - exact (proj1 (proj2 (proj2 (proj2 (proj2 (X16_environment_fallback Getenv
                    ParseDuration "GCLOUD_TIMEOUT" "" 300000000000)))))
                 (-300000000000)%Z H2 eq_refl).
Defined.

(** X17. [GetRequiredString] succeeds exactly when the argument is present
    and is a string that is not empty, and then returns that string; it
    fails with three different messages for an absent argument, for a
    value that is not a string, and for the empty string. *)
Theorem X17_GetRequiredString (args : gmap string any) (key : string) :
  (∀ s, GetRequiredString args key = inl s
        ↔ args !! key = Some (AnyString s) ∧ s ≠ "") ∧
  (args !! key = None →
   GetRequiredString args key
   = inr (errorString ("missing required parameter: " +:+ key))) ∧
  (args !! key = Some (AnyString "") →
   GetRequiredString args key
   = inr (errorString ("parameter " +:+ key +:+ " cannot be empty"))) ∧
  (∀ v, args !! key = Some v → (∀ s, v ≠ AnyString s) →
   GetRequiredString args key
   = inr (errorString ("parameter " +:+ key +:+ " must be a string"))).
Proof.
  unfold GetRequiredString. split_and!.
  - intros s. destruct (args !! key) as [[| | |str| |]|]; try (split; [done|]);
      try (by intros [[=] _]).
    destruct (nonempty str) eqn:Hs.
    + apply nonempty_true in Hs. split; [by intros [= <-]|by intros [[= <-] _]].
    + apply nonempty_false in Hs. split; [done|]. by intros [[= <-] ?].
  - by intros ->.
  - by intros ->.
  - intros v -> Hv. destruct v; try done. by destruct (Hv s).
Qed.

(** X17 at arguments with a number under the key. *)
Lemma X17_GetRequiredString_witness :
  let args : gmap string any :=
    <["zone" := AnyFloat64 (Float64 0)]> (<["instance" := AnyString "vm-1"]> ∅) in
  args !! "instance" = Some (AnyString "vm-1") ∧ "vm-1" ≠ "" ∧
  GetRequiredString args "instance" = inl "vm-1" ∧
  GetRequiredString args "zone"
  = inr (errorString "parameter zone must be a string") ∧
  GetRequiredString args "project"
  = inr (errorString "missing required parameter: project").
Proof.
  intros args.
  destruct (X17_GetRequiredString args "instance") as (H1 & _).
  destruct (X17_GetRequiredString args "zone") as (_ & _ & _ & H4).
  destruct (X17_GetRequiredString args "project") as (_ & H2 & _).
  assert (args !! "instance" = Some (AnyString "vm-1")) as Hi by reflexivity.
  assert ("vm-1" ≠ "") as Hne by discriminate.
  split_and!; [exact Hi|exact Hne|exact (proj2 (H1 "vm-1") (conj Hi Hne))| |].
  - exact (H4 (AnyFloat64 (Float64 0)) eq_refl ltac:(discriminate)).
  - exact (H2 eq_refl).
Defined.

(** X18. [GetOptionalString] returns the argument when it is a string,
    also when that string is empty, and the default in every other case;
    [GetOptionalBool] does the same for a bool.  Passed on to a setter,
    an argument given as the empty string therefore neither overrides the
    project nor sets a flag, not even to the default of the getter. *)
Theorem X18_optional_getters (args : gmap string any) (key name defaultVal : string)
    (defaultBool : bool) (b : CommandBuilder) :
  (∀ s, args !! key = Some (AnyString s) →
        GetOptionalString args key defaultVal = s) ∧
  ((∀ s, args !! key ≠ Some (AnyString s)) →
   GetOptionalString args key defaultVal = defaultVal) ∧
  (∀ v, args !! key = Some (AnyBool v) →
        GetOptionalBool args key defaultBool = v) ∧
  ((∀ v, args !! key ≠ Some (AnyBool v)) →
   GetOptionalBool args key defaultBool = defaultBool) ∧
  (args !! key = Some (AnyString "") →
   WithProject (GetOptionalString args key "") b = b ∧
   WithFlag name (GetOptionalString args key defaultVal) b = b) ∧
  project (WithProject (GetOptionalString args key "") b)
  = match args !! key with
    | Some (AnyString s) => if nonempty s then s else project b
    | _ => project b
    end.
Proof.
  unfold GetOptionalString, GetOptionalBool. split_and!.
  - by intros s ->.
  - intros H. destruct (args !! key) as [[| | |s| |]|]; try done.
    by destruct (H s).
  - by intros v ->.
  - intros H. destruct (args !! key) as [[|v| | | |]|]; try done.
    by destruct (H v).
  - by intros ->.
  - destruct (args !! key) as [[| | |s| |]|]; try done.
    unfold WithProject. by destruct (nonempty s).
Qed.

(** X18 at an argument given as the empty string. *)
Lemma X18_optional_getters_witness :
  let args : gmap string any := <["database" := AnyString ""]> ∅ in
  let b := Command (New (mkConfig "p" "" "" "gcloud" 60)) ["firestore"; "export"] in
  args !! "database" = Some (AnyString "") ∧
  GetOptionalString args "database" "(default)" = "" ∧
  WithFlag "database" (GetOptionalString args "database" "(default)") b = b.
Proof.
  intros args b.
  destruct (X18_optional_getters args "database" "database" "(default)" false b)
    as (H1 & _ & _ & _ & H5 & _).
  assert (args !! "database" = Some (AnyString "")) as Ha by reflexivity.
  split_and!; [exact Ha|exact (H1 "" Ha)|exact (proj2 (H5 Ha))].
Defined.

Section StringArray.

Lemma foldl_strings (acc : list string) (arr : list any) :
  foldl (λ result v,
           match v with
           | AnyString s => result ++ [s]
           | _ => result
           end) acc arr
  = acc ++ strings_of arr.
Proof.
  revert acc. induction arr as [|v arr IH]; intros acc; simpl.
  - by rewrite app_nil_r.
  - rewrite IH. unfold strings_of. destruct v; simpl; try done.
    by rewrite <-app_assoc.
Qed.

Lemma strings_of_strings (l : list string) : strings_of (AnyString <$> l) = l.
Proof.
  induction l as [|s l IH]; [done|].
  change (strings_of (AnyString <$> s :: l))
    with (s :: strings_of (AnyString <$> l)).
  by rewrite IH.
Qed.

Lemma strings_of_sublist (arr : list any) :
  AnyString <$> strings_of arr `sublist_of` arr.
Proof.
  induction arr as [|v arr IH]; [done|]. unfold strings_of in *.
  destruct v; simpl; try (by apply sublist_cons).
  by apply sublist_skip.
Qed.

End StringArray.

(** X19. [GetOptionalStringArray] returns nil when the argument is absent
    or is not a slice; for a slice it returns a slice that is not nil and
    holds the strings of the argument in their order, the values that are
    not strings being left out without an error.  A slice of strings is
    returned as it is. *)
Theorem X19_GetOptionalStringArray (args : gmap string any) (key : string) :
  (GetOptionalStringArray args key = None
   ↔ ∀ arr, args !! key ≠ Some (AnySlice arr)) ∧
  (∀ arr, args !! key = Some (AnySlice arr) →
     GetOptionalStringArray args key = Some (strings_of arr) ∧
     AnyString <$> strings_of arr `sublist_of` arr ∧
     length (strings_of arr) ≤ length arr) ∧
  (∀ l, args !! key = Some (AnySlice (AnyString <$> l)) →
        GetOptionalStringArray args key = Some l).
Proof.
  unfold GetOptionalStringArray. split_and!.
  - split.
    + intros Hnone arr Harr. by rewrite Harr in Hnone.
    + intros H. destruct (args !! key) as [[| | | |arr|]|]; try done.
      by destruct (H arr).
  - intros arr ->. rewrite (foldl_strings [] arr). simpl.
    split_and!; [done|apply strings_of_sublist|].
    rewrite <-(length_fmap AnyString). apply sublist_length, strings_of_sublist.
  - intros l ->. rewrite (foldl_strings [] _). simpl.
    by rewrite strings_of_strings.
Qed.

(** X19 at a slice with a number among the strings. *)
Lemma X19_GetOptionalStringArray_witness :
  let arr := [AnyString "users"; AnyFloat64 (Float64 0); AnyString "orders"] in
  let args : gmap string any := <["collection_ids" := AnySlice arr]> ∅ in
  args !! "collection_ids" = Some (AnySlice arr) ∧
  GetOptionalStringArray args "collection_ids" = Some ["users"; "orders"].
Proof.
  intros arr args.
  assert (args !! "collection_ids" = Some (AnySlice arr)) as Ha by reflexivity.
  split; [exact Ha|].
  exact (proj1 (proj1 (proj2 (X19_GetOptionalStringArray args "collection_ids"))
                      arr Ha)).
Defined.

Section StringMapFacts.

Variable Sprint : any → string.

Lemma foldl_reverse {A B} (g : B → A → B) (acc : B) (l : list A) :
  foldl g acc l = foldr (λ x r, g r x) acc (reverse l).
Proof.
  revert acc. induction l as [|x l IH]; intros acc; [done|].
  simpl. by rewrite IH, reverse_cons, foldr_app.
Qed.

Lemma foldr_insert_text (l : list (string * any)) :
  foldr (λ (kv : string * any) (result : gmap string string),
           match kv.2 with
           | AnyString s => <[kv.1 := s]> result
           | v => <[kv.1 := Sprint v]> result
           end) ∅ l
  = list_to_map (prod_map id (as_text Sprint) <$> l).
Proof.
  induction l as [|[k v] l IH]; [done|]. simpl. rewrite IH.
  by destruct v.
Qed.

(** The map that the loop of [GetOptionalStringMap] builds does not depend
    on the order in which the entries are visited. *)
Lemma string_map_loop (m : gmap string any) (ml : list (string * any)) :
  ml ≡ₚ map_to_list m →
  foldl (λ (result : gmap string string) (kv : string * any),
           match kv.2 with
           | AnyString s => <[kv.1 := s]> result
           | v => <[kv.1 := Sprint v]> result
           end) ∅ ml
  = as_text Sprint <$> m.
Proof.
  intros Hml. rewrite foldl_reverse, foldr_insert_text.
  rewrite <-(list_to_map_to_list (as_text Sprint <$> m)).
  apply list_to_map_proper.
  - rewrite <-list_fmap_compose.
    rewrite (list_fmap_ext _ fst (reverse ml)) by (by intros ? []).
    rewrite reverse_Permutation, Hml. apply NoDup_fst_map_to_list.
  - by rewrite reverse_Permutation, Hml, map_to_list_fmap.
Qed.

End StringMapFacts.

(** X20. [GetOptionalStringMap] returns nil when the argument is absent or
    is not a map.  For a map it returns a map with the same keys, in which
    a string is kept as it is and any other value is replaced by its
    [%v] text; the result is the same in whatever order the entries are
    visited. *)
Theorem X20_GetOptionalStringMap (Sprint : any → string)
    (ml : list (string * any)) (args : gmap string any) (key : string) :
  (GetOptionalStringMap Sprint ml args key = None
   ↔ ∀ m, args !! key ≠ Some (AnyMap m)) ∧
  (∀ m, args !! key = Some (AnyMap m) → ml ≡ₚ map_to_list m →
     GetOptionalStringMap Sprint ml args key = Some (as_text Sprint <$> m) ∧
     dom (as_text Sprint <$> m) = dom m ∧
     ∀ k s, m !! k = Some (AnyString s) → (as_text Sprint <$> m) !! k = Some s).
Proof.
  unfold GetOptionalStringMap. split.
  - split.
    + intros Hnone m Hm. by rewrite Hm in Hnone.
    + intros H. destruct (args !! key) as [[| | | | |m]|]; try done.
      by destruct (H m).
  - intros m -> Hml. split_and!.
    + by rewrite (string_map_loop Sprint m ml Hml).
    + apply dom_fmap_L.
    + intros k s Hk. by rewrite lookup_fmap, Hk.
Qed.

(** X20 at a map with a string and a bool. *)
Lemma X20_GetOptionalStringMap_witness :
  let Sprint := λ v : any,
    match v with AnyBool true => "true" | AnyBool false => "false" | _ => "" end in
  let m : gmap string any :=
    <["name" := AnyString "test"]> (<["enabled" := AnyBool true]> ∅) in
  let args : gmap string any := <["labels" := AnyMap m]> ∅ in
  args !! "labels" = Some (AnyMap m) ∧
  GetOptionalStringMap Sprint (map_to_list m) args "labels"
  = Some (as_text Sprint <$> m) ∧
  (as_text Sprint <$> m) !! "name" = Some "test".
Proof.
  intros Sprint m args.
  assert (args !! "labels" = Some (AnyMap m)) as Ha by reflexivity.
  destruct (proj2 (X20_GetOptionalStringMap Sprint (map_to_list m) args "labels")
              m Ha (reflexivity _)) as (H1 & _ & H3).
  split_and!; [exact Ha|exact H1|exact (H3 "name" "test" eq_refl)].
Defined.

(* ================================================================== *)
(** * Properties of the tool handlers *)

Section HandlerFacts.

Variable run : Cmd → Output.
Variable Indent : string → option string.

Implicit Types (base : BaseService) (args : gmap string any).

Lemma GetRequiredString_ok args key s :
  args !! key = Some (AnyString s) → s ≠ "" →
  GetRequiredString args key = inl s.
Proof.
  intros Hl Hs. unfold GetRequiredString. rewrite Hl.
  by apply nonempty_true in Hs as ->.
Qed.

Lemma show_json_IsError (r : Result * option error) :
  IsError (show_json Indent r) = true ↔ r.2 ≠ None.
Proof. unfold show_json. by destruct r.2. Qed.

Lemma Execute_error_iff fl al b log :
  (Execute run fl al b log).1.2 = None
  ↔ out_err (run (mkCmd (GCloudPath (config (executor b))) (BuildWith fl al b)
                        (CommandTimeout (config (executor b))))) = None.
Proof.
  rewrite Execute_result. simpl. by destruct (out_err _).
Qed.

(** The project and the token of the builder after the call
    [WithProject(GetOptionalString(args, "project", ""))]. *)
Lemma project_WithProject_arg base args b :
  project b = Project (config (bs_Executor base)) →
  project (WithProject (GetOptionalString args "project" "") b)
  = handler_project base args.
Proof.
  intros Hb. unfold handler_project, WithProject.
  by destruct (nonempty _).
Qed.

(** [Build] does not read the maps; it is given their entries. *)
Lemma BuildWith_set_flags fl al m b :
  BuildWith fl al (set_flags m b) = BuildWith fl al b.
Proof. reflexivity. Qed.

Lemma BuildWith_set_arrayFlags fl al m b :
  BuildWith fl al (set_arrayFlags m b) = BuildWith fl al b.
Proof. reflexivity. Qed.

Lemma project_args_handler base args b :
  project b = handler_project base args →
  project_args b = project_token base args.
Proof. intros Hb. unfold project_args, project_token. by rewrite Hb. Qed.

Lemma visit_order_no_flag fl al b :
  flags b = ∅ → arrayFlags b = ∅ → visit_order fl al b → fl = [] ∧ al = [].
Proof.
  intros Hf Ha [Hfl Hal]. rewrite Hf, map_to_list_empty in Hfl.
  rewrite Ha, map_to_list_empty in Hal.
  split; by apply Permutation_nil_r.
Qed.

Lemma visit_order_one_flag fl al b key value :
  flags b = {[key := value]} → arrayFlags b = ∅ → visit_order fl al b →
  fl = [(key, value)] ∧ al = [].
Proof.
  intros Hf Ha [Hfl Hal]. rewrite Hf, map_to_list_singleton in Hfl.
  rewrite Ha, map_to_list_empty in Hal.
  split; [by apply Permutation_singleton_r|by apply Permutation_nil_r].
Qed.

Lemma Execute_command fl al b log base :
  executor b = bs_Executor base →
  (Execute run fl al b log).2 = log ++ [gcloud base (BuildWith fl al b)].
Proof. intros He. rewrite Execute_log. unfold gcloud. by rewrite He. Qed.

Lemma Execute_error_command fl al b log base :
  executor b = bs_Executor base →
  (Execute run fl al b log).1.2 = None
  ↔ out_err (run (gcloud base (BuildWith fl al b))) = None.
Proof. intros He. rewrite Execute_error_iff. unfold gcloud. by rewrite He. Qed.

End HandlerFacts.

Section HandlerCommands.

Variable run : Cmd → Output.

Implicit Types (base : BaseService) (args : gmap string any).

(** The outcome of [Execute] once the arguments of the command are known. *)
Lemma Execute_outcome fl al b log base cmdargs :
  executor b = bs_Executor base → BuildWith fl al b = cmdargs →
  ∃ r, Execute run fl al b log = (r, log ++ [gcloud base cmdargs]) ∧
       (r.2 = None ↔ out_err (run (gcloud base cmdargs)) = None) ∧
       Stdout r.1 = out_stdout (run (gcloud base cmdargs)).
Proof.
  intros He <-. exists (Execute run fl al b log).1. split_and!.
  - rewrite <-(Execute_command run fl al b log base He).
    by destruct (Execute _ _ _ _ _).
  - by apply Execute_error_command.
  - rewrite Execute_result. cbv zeta. unfold gcloud. rewrite He.
    by destruct (out_err _).
Qed.

(** The loop over the collection IDs leaves every field but [arrayFlags]
    as it is. *)
Lemma foldl_WithArrayFlag_fields name ids b :
  let b' := foldl (λ cmd id, WithArrayFlag name id cmd) b ids in
  components b' = components b ∧ flags b' = flags b ∧
  boolFlags b' = boolFlags b ∧ project b' = project b ∧
  format b' = format b ∧ executor b' = executor b.
Proof.
  revert b. induction ids as [|id ids IH]; intros b; [done|].
  simpl. destruct (IH (WithArrayFlag name id b)) as (-> & -> & -> & -> & -> & ->).
  unfold WithArrayFlag. by destruct (nonempty id).
Qed.

Lemma foldl_WithArrayFlag_arrayFlags name ids b :
  arrayFlags (foldl (λ cmd id, WithArrayFlag name id cmd) b ids)
  = if decide (filter (λ v, v ≠ "") ids = []) then arrayFlags b
    else <[name := default [] (arrayFlags b !! name)
                   ++ filter (λ v, v ≠ "") ids]> (arrayFlags b).
Proof.
  revert b. induction ids as [|id ids IH]; intros b; [done|].
  simpl. rewrite IH. unfold WithArrayFlag.
  destruct (nonempty id) eqn:Hid.
  - apply nonempty_true in Hid as Hne. rewrite filter_cons_True by done.
    destruct (decide (id :: _ = [])) as [?|_]; [done|]. simpl.
    rewrite lookup_insert_eq. simpl.
    destruct (decide (filter _ ids = [])) as [->|_].
    + done.
    + by rewrite insert_insert_eq, <-app_assoc.
  - apply nonempty_false in Hid as ->. by rewrite filter_cons_False by naive_solver.
Qed.

Lemma len_guard {A} (o : option (list string)) (f : A → string → A) (a : A) :
  (if decide (0 < len o) then foldl f a (default [] o) else a)
  = foldl f a (default [] o).
Proof.
  destruct o as [[|x l]|]; case_decide; simpl in *; try done; lia.
Qed.

(** The order of the runtime is one of the orders of [visit_order], and
    [BuildBy] is a run of [Build]. *)
Lemma range_visit_order rg b :
  every_entry_once rg →
  visit_order (range_flags rg (flags b)) (range_arrayFlags rg (arrayFlags b)) b.
Proof. intros [Hf Ha]. split; [apply Hf|apply Ha]. Qed.

Lemma Builds_BuildBy rg b : every_entry_once rg → Builds b (BuildBy rg b).
Proof.
  intros [Hf Ha]. exists (range_flags rg (flags b)),
                         (range_arrayFlags rg (arrayFlags b)).
  split_and!; [apply Hf|apply Ha|reflexivity].
Qed.

Lemma ExecuteWithZoneBy_unfold rg b log :
  ExecuteWithZoneBy run rg b log
  = let b' := if nonempty (zone b) then WithFlag "zone" (zone b) b else b in
    let r := Execute run (range_flags rg (flags b'))
                     (range_arrayFlags rg (arrayFlags b')) b' log in
    ((b', r.1), r.2).
Proof.
  unfold ExecuteWithZoneBy, ExecuteBy, bind, ret. cbv zeta.
  by destruct (Execute _ _ _ _ _).
Qed.

End HandlerCommands.

(** X21. The handler of [gcp_compute_instances_describe].  When [instance]
    or [zone] is absent, empty or not a string, no command is started and
    the result is the error of [GetRequiredString].  Otherwise exactly one
    command is started, in whatever order the runtime visits the maps; its
    arguments are [compute instances describe], the instance, [--zone=]
    with the zone of the arguments, the project token if any and
    [--format=json], in this order; the result is an error result exactly
    when running the command gave an error.  The handler never returns an
    error of its own. *)
Theorem X21_compute_instances_describe (run : Cmd → Output)
    (Indent : string → option string) (rg : Range) (base : BaseService)
    (args : gmap string any) (log : list Cmd) :
  (∀ err, GetRequiredString args "instance" = inr err →
     compute_instances_describe run Indent rg base args log
     = ((ToolError err, None), log)) ∧
  (∀ inst err,
     GetRequiredString args "instance" = inl inst →
     GetRequiredString args "zone" = inr err →
     compute_instances_describe run Indent rg base args log
     = ((ToolError err, None), log)) ∧
  (∀ inst z,
     args !! "instance" = Some (AnyString inst) → inst ≠ "" →
     args !! "zone" = Some (AnyString z) → z ≠ "" →
     every_entry_once rg →
     let cmd := gcloud base (["compute"; "instances"; "describe"; inst;
                              "--zone=" +:+ z]
                             ++ project_token base args ++ ["--format=json"]) in
     ∃ result,
       compute_instances_describe run Indent rg base args log
       = ((result, None), log ++ [cmd]) ∧
       (IsError result = true ↔ out_err (run cmd) ≠ None)).
Proof.
  split_and!.
  - intros err He. unfold compute_instances_describe. by rewrite He.
  - intros inst err Hi Hz. unfold compute_instances_describe.
    by rewrite Hi, Hz.
  - intros inst z Hi Hine Hz Hzne Hrg cmd.
    unfold compute_instances_describe.
    rewrite (GetRequiredString_ok _ _ _ Hi Hine),
            (GetRequiredString_ok _ _ _ Hz Hzne).
    cbv zeta. unfold bind at 1.
    rewrite ExecuteWithZoneBy_unfold.
    set (b := WithProject _ (WithZone z (Command _ _))) in *.
    apply nonempty_true in Hzne as Hzne'.
    assert (project b = handler_project base args) as Hpb.
    { unfold b. apply project_WithProject_arg. unfold WithZone.
      by rewrite Hzne'. }
    assert (zone b = z ∧ format b = "json" ∧ boolFlags b = [] ∧
            components b = ["compute"; "instances"; "describe"; inst]
            ∧ executor b = bs_Executor base ∧ flags b = ∅ ∧ arrayFlags b = ∅)
      as (Hzb & Hfb & Hbb & Hcb & Heb & Hflags & Harr).
    { unfold b, WithProject, WithZone. rewrite Hzne'.
      by destruct (nonempty (GetOptionalString _ _ _)). }
    rewrite Hzb, Hzne'. cbv zeta.
    assert (WithFlag "zone" z b = set_flags (<["zone" := z]> (flags b)) b) as HW.
    { unfold WithFlag. by rewrite Hzne'. }
    rewrite HW. set (b' := set_flags _ b).
    assert (flags b' = {["zone" := z]}) as Hone.
    { change (<["zone" := z]> (flags b) = {["zone" := z]}).
      rewrite Hflags. apply insert_empty. }
    destruct (visit_order_one_flag _ _ b' "zone" z Hone Harr
                (range_visit_order rg b' Hrg)) as [Hfl Hal].
    rewrite Hfl, Hal.
    assert (BuildWith [("zone", z)] [] b' = cmd_Args cmd) as Hargs.
    { unfold b'. rewrite BuildWith_set_flags, BuildWith_layout.
      rewrite Hcb, Hbb, (project_args_handler base args b Hpb).
      unfold format_args. rewrite Hfb. reflexivity. }
    assert (executor b' = bs_Executor base) as Heb' by exact Heb.
    destruct (Execute_outcome run _ _ _ log base _ Heb' Hargs)
      as (r & Hex & Herr & _).
    rewrite Hex. change (gcloud base (cmd_Args cmd)) with cmd in *.
    cbn [fst snd]. unfold ret. eexists. split; [reflexivity|].
    rewrite show_json_IsError, <-Herr. cbn [snd].
    destruct (r.2); split; congruence.
Qed.

(** X21 at arguments with an instance, a zone and a project. *)
Lemma X21_compute_instances_describe_witness :
  let run := λ _ : Cmd, mkOutput "{}" "" None in
  let rg := mkRange map_to_list map_to_list in
  let base := NewBaseService (mkConfig "default" "" "" "gcloud" 60) in
  let args : gmap string any :=
    <["instance" := AnyString "vm-1"]>
      (<["zone" := AnyString "us-central1-a"]>
         (<["project" := AnyString "prod"]> ∅)) in
  args !! "instance" = Some (AnyString "vm-1") ∧ "vm-1" ≠ "" ∧
  args !! "zone" = Some (AnyString "us-central1-a") ∧ "us-central1-a" ≠ "" ∧
  every_entry_once rg ∧
  ∃ result,
    compute_instances_describe run (λ _, None) rg base args []
    = ((result, None),
       [] ++ [gcloud base (["compute"; "instances"; "describe"; "vm-1";
                            "--zone=" +:+ "us-central1-a"]
                           ++ project_token base args ++ ["--format=json"])]).
Proof.
  intros run rg base args.
  assert (args !! "instance" = Some (AnyString "vm-1")) as Hi by reflexivity.
  assert (args !! "zone" = Some (AnyString "us-central1-a")) as Hz by reflexivity.
  assert ("vm-1" ≠ "") as Hine by discriminate.
  assert ("us-central1-a" ≠ "") as Hzne by discriminate.
  assert (every_entry_once rg) as Hrg by (split; intros m; reflexivity).
  destruct (X21_compute_instances_describe run (λ _, None) rg base args [])
    as (_ & _ & H).
  destruct (H "vm-1" "us-central1-a" Hi Hine Hz Hzne Hrg) as (result & Hr & _).
  split_and!; [exact Hi|exact Hine|exact Hz|exact Hzne|exact Hrg|].
  exists result. exact Hr.
Defined.

(** X22. The handler of [gcp_compute_instances_delete].  When [instance] or
    [zone] is absent, empty or not a string, no command is started.
    Otherwise exactly one command is started, in whatever order the
    runtime visits the maps, with the arguments
    [compute instances delete], the instance, [--zone=] with the zone,
    [--quiet], the project token if any and [--format=json], in this
    order.  When the command succeeds the result is the fixed text
    [Instance deleted successfully], whatever the command printed; when it
    fails the result is an error result. *)
Theorem X22_compute_instances_delete (run : Cmd → Output) (rg : Range)
    (base : BaseService) (args : gmap string any) (log : list Cmd) :
  (∀ err, GetRequiredString args "instance" = inr err →
     compute_instances_delete run rg base args log
     = ((ToolError err, None), log)) ∧
  (∀ inst err,
     GetRequiredString args "instance" = inl inst →
     GetRequiredString args "zone" = inr err →
     compute_instances_delete run rg base args log
     = ((ToolError err, None), log)) ∧
  (∀ inst z,
     args !! "instance" = Some (AnyString inst) → inst ≠ "" →
     args !! "zone" = Some (AnyString z) → z ≠ "" →
     every_entry_once rg →
     let cmd := gcloud base (["compute"; "instances"; "delete"; inst;
                              "--zone=" +:+ z; "--quiet"]
                             ++ project_token base args ++ ["--format=json"]) in
     ∃ result,
       compute_instances_delete run rg base args log
       = ((result, None), log ++ [cmd]) ∧
       (out_err (run cmd) = None →
        result = ToolResult "Instance deleted successfully") ∧
       (out_err (run cmd) ≠ None → IsError result = true)).
Proof.
  split_and!.
  - intros err He. unfold compute_instances_delete. by rewrite He.
  - intros inst err Hi Hz. unfold compute_instances_delete.
    by rewrite Hi, Hz.
  - intros inst z Hi Hine Hz Hzne Hrg cmd.
    unfold compute_instances_delete.
    rewrite (GetRequiredString_ok _ _ _ Hi Hine),
            (GetRequiredString_ok _ _ _ Hz Hzne).
    cbv zeta. unfold bind at 1.
    rewrite ExecuteWithZoneBy_unfold.
    set (b := WithBoolFlag "quiet" (WithProject _ (WithZone z (Command _ _)))) in *.
    apply nonempty_true in Hzne as Hzne'.
    assert (project b = handler_project base args) as Hpb.
    { unfold b. simpl. apply project_WithProject_arg. unfold WithZone.
      by rewrite Hzne'. }
    assert (zone b = z ∧ format b = "json" ∧ boolFlags b = ["quiet"] ∧
            components b = ["compute"; "instances"; "delete"; inst]
            ∧ executor b = bs_Executor base ∧ flags b = ∅ ∧ arrayFlags b = ∅)
      as (Hzb & Hfb & Hbb & Hcb & Heb & Hflags & Harr).
    { unfold b, WithBoolFlag, WithProject, WithZone. rewrite Hzne'.
      by destruct (nonempty (GetOptionalString _ _ _)). }
    rewrite Hzb, Hzne'. cbv zeta.
    assert (WithFlag "zone" z b = set_flags (<["zone" := z]> (flags b)) b) as HW.
    { unfold WithFlag. by rewrite Hzne'. }
    rewrite HW. set (b' := set_flags _ b).
    assert (flags b' = {["zone" := z]}) as Hone.
    { change (<["zone" := z]> (flags b) = {["zone" := z]}).
      rewrite Hflags. apply insert_empty. }
    destruct (visit_order_one_flag _ _ b' "zone" z Hone Harr
                (range_visit_order rg b' Hrg)) as [Hfl Hal].
    rewrite Hfl, Hal.
    assert (BuildWith [("zone", z)] [] b' = cmd_Args cmd) as Hargs.
    { unfold b'. rewrite BuildWith_set_flags, BuildWith_layout.
      rewrite Hcb, Hbb, (project_args_handler base args b Hpb).
      unfold format_args. rewrite Hfb. reflexivity. }
    assert (executor b' = bs_Executor base) as Heb' by exact Heb.
    destruct (Execute_outcome run _ _ _ log base _ Heb' Hargs)
      as (r & Hex & Herr & _).
    rewrite Hex. change (gcloud base (cmd_Args cmd)) with cmd in *.
    cbn [fst snd]. destruct (r.2) as [e|] eqn:Hr2; unfold ret.
    + eexists. split_and!; [reflexivity| |done].
      intros Hok. apply Herr in Hok. congruence.
    + eexists. split_and!; [reflexivity|done|].
      intros Hbad. by destruct Hbad; apply Herr.
Qed.

(** X22 at arguments with an instance and a zone, for a command that
    prints something and succeeds. *)
Lemma X22_compute_instances_delete_witness :
  let run := λ _ : Cmd, mkOutput "Deleted [vm-1]." "" None in
  let rg := mkRange map_to_list map_to_list in
  let base := NewBaseService (mkConfig "default" "" "" "gcloud" 60) in
  let args : gmap string any :=
    <["instance" := AnyString "vm-1"]>
      (<["zone" := AnyString "us-central1-a"]> ∅) in
  args !! "instance" = Some (AnyString "vm-1") ∧ "vm-1" ≠ "" ∧
  args !! "zone" = Some (AnyString "us-central1-a") ∧ "us-central1-a" ≠ "" ∧
  every_entry_once rg ∧
  ∃ result,
    compute_instances_delete run rg base args []
    = ((result, None),
       [] ++ [gcloud base (["compute"; "instances"; "delete"; "vm-1";
                            "--zone=" +:+ "us-central1-a"; "--quiet"]
                           ++ project_token base args ++ ["--format=json"])]) ∧
    result = ToolResult "Instance deleted successfully".
Proof.
  intros run rg base args.
  assert (args !! "instance" = Some (AnyString "vm-1")) as Hi by reflexivity.
  assert (args !! "zone" = Some (AnyString "us-central1-a")) as Hz by reflexivity.
  assert ("vm-1" ≠ "") as Hine by discriminate.
  assert ("us-central1-a" ≠ "") as Hzne by discriminate.
  assert (every_entry_once rg) as Hrg by (split; intros m; reflexivity).
  destruct (X22_compute_instances_delete run rg base args []) as (_ & _ & H).
  destruct (H "vm-1" "us-central1-a" Hi Hine Hz Hzne Hrg)
    as (result & Hr & Hok & _).
  split_and!; [exact Hi|exact Hine|exact Hz|exact Hzne|exact Hrg|].
  exists result. split; [exact Hr|]. apply Hok. reflexivity.
Defined.



(** X24. The handler of [gcp_gke_clusters_list] starts exactly one command,
    in whatever order the runtime visits the maps: [container clusters
    list], then [--region=] with the argument [region] when that is a
    string that is not empty, the project token if any and
    [--format=json].  The region of the configuration is not sent.  The
    result is an error result exactly when running the command gave an
    error. *)
Theorem X24_gke_clusters_list (run : Cmd → Output)
    (Indent : string → option string) (rg : Range) (base : BaseService)
    (args : gmap string any) (log : list Cmd) :
  every_entry_once rg →
  let reg := GetOptionalString args "region" "" in
  let cmd := gcloud base (["container"; "clusters"; "list"]
                          ++ (if nonempty reg then ["--region=" +:+ reg] else [])
                          ++ project_token base args ++ ["--format=json"]) in
  ∃ result,
    gke_clusters_list run Indent rg base args log
    = ((result, None), log ++ [cmd]) ∧
    (IsError result = true ↔ out_err (run cmd) ≠ None).
Proof.
  intros Hrg reg cmd. unfold gke_clusters_list.
  cbv zeta. fold reg. unfold bind at 1. unfold ExecuteBy.
  set (b0 := WithProject _ (Command _ _)) in *.
  assert (project b0 = handler_project base args) as Hpb.
  { unfold b0. by apply project_WithProject_arg. }
  assert (format b0 = "json" ∧ boolFlags b0 = [] ∧
          components b0 = ["container"; "clusters"; "list"]
          ∧ executor b0 = bs_Executor base ∧ flags b0 = ∅ ∧ arrayFlags b0 = ∅)
    as (Hfb & Hbb & Hcb & Heb & Hflags & Harr).
  { unfold b0, WithProject.
    by destruct (nonempty (GetOptionalString _ _ _)). }
  set (b := if nonempty reg then WithFlag "region" reg b0 else b0) in *.
  assert (executor b = bs_Executor base) as Heb'.
  { unfold b, WithFlag. by destruct (nonempty reg). }
  pose proof (range_visit_order rg b Hrg) as Hv.
  assert (BuildWith (range_flags rg (flags b)) (range_arrayFlags rg (arrayFlags b)) b
          = cmd_Args cmd) as Hargs.
  { revert Hv. generalize (range_flags rg (flags b)) as fl.
    generalize (range_arrayFlags rg (arrayFlags b)) as al. intros al fl Hv.
    unfold b in *. unfold WithFlag in *. destruct (nonempty reg) eqn:Hreg.
    - assert (flags (set_flags (<["region" := reg]> (flags b0)) b0)
              = {["region" := reg]}) as Hone.
      { change (<["region" := reg]> (flags b0) = {["region" := reg]}).
        rewrite Hflags. apply insert_empty. }
      destruct (visit_order_one_flag fl al _ "region" reg Hone Harr Hv)
        as [-> ->].
      rewrite BuildWith_set_flags, BuildWith_layout.
      rewrite Hcb, Hbb, (project_args_handler base args b0 Hpb).
      unfold format_args. rewrite Hfb. subst cmd. unfold gcloud.
      cbn [cmd_Args]. rewrite ?Hreg. reflexivity.
    - destruct (visit_order_no_flag fl al _ Hflags Harr Hv) as [-> ->].
      rewrite BuildWith_layout.
      rewrite Hcb, Hbb, (project_args_handler base args b0 Hpb).
      unfold format_args. rewrite Hfb. subst cmd. unfold gcloud.
      cbn [cmd_Args]. rewrite ?Hreg. reflexivity. }
  destruct (Execute_outcome run _ _ _ log base _ Heb' Hargs)
    as (r & Hex & Herr & _).
  rewrite Hex. change (gcloud base (cmd_Args cmd)) with cmd in *.
  unfold ret. eexists. split; [reflexivity|].
  rewrite show_json_IsError, <-Herr.
  destruct (r.2); split; congruence.
Qed.

(** X24 with one region in the configuration and another in the
    arguments. *)
Lemma X24_gke_clusters_list_witness :
  let run := λ _ : Cmd, mkOutput "[]" "" None in
  let rg := mkRange map_to_list map_to_list in
  let base := NewBaseService (mkConfig "default" "europe-west1" "" "gcloud" 60) in
  let args : gmap string any := <["region" := AnyString "us-east1"]> ∅ in
  every_entry_once rg ∧
  ∃ result,
    gke_clusters_list run (λ _, None) rg base args []
    = ((result, None),
       [] ++ [gcloud base ["container"; "clusters"; "list"; "--region=us-east1";
                           "--project=default"; "--format=json"]]).
Proof.
  intros run rg base args.
  assert (every_entry_once rg) as Hrg by (split; intros m; reflexivity).
  destruct (X24_gke_clusters_list run (λ _, None) rg base args [] Hrg)
    as (result & Hr & _).
  split; [exact Hrg|]. exists result. exact Hr.
Defined.

(** X25. The handler of [gcp_firestore_export].  When [output_uri_prefix]
    is absent, empty or not a string, no command is started.  Otherwise
    exactly one command is started, in whatever order the runtime visits
    the maps: [firestore export] and the prefix; [--database=] with the
    argument [database] when that is a string, with [(default)] otherwise,
    and no such token when the argument is the empty string; one
    [--collection-ids=] token for each string of [collection_ids] that is
    not empty, in the order of the array; the project token if any;
    [--format=json]. *)
Theorem X25_firestore_export (run : Cmd → Output)
    (Indent : string → option string) (rg : Range) (base : BaseService)
    (args : gmap string any) (log : list Cmd) :
  (∀ err, GetRequiredString args "output_uri_prefix" = inr err →
     firestore_export run Indent rg base args log
     = ((ToolError err, None), log)) ∧
  (∀ uri,
     args !! "output_uri_prefix" = Some (AnyString uri) → uri ≠ "" →
     every_entry_once rg →
     let database := GetOptionalString args "database" "(default)" in
     let collectionIDs := GetOptionalStringArray args "collection_ids" in
     let cmd :=
       gcloud base
         (["firestore"; "export"; uri]
          ++ (if nonempty database then ["--database=" +:+ database] else [])
          ++ ((λ v, "--collection-ids=" +:+ v)
                <$> filter (λ v, v ≠ "") (default [] collectionIDs))
          ++ project_token base args ++ ["--format=json"]) in
     ∃ result,
       firestore_export run Indent rg base args log
       = ((result, None), log ++ [cmd]) ∧
       (IsError result = true ↔ out_err (run cmd) ≠ None)).
Proof.
  split.
  - intros err He. unfold firestore_export. by rewrite He.
  - intros uri Hi Hine Hrg database collectionIDs cmd.
    unfold firestore_export.
    rewrite (GetRequiredString_ok _ _ _ Hi Hine).
    cbv zeta. fold database collectionIDs. unfold bind at 1.
    rewrite len_guard. unfold ExecuteBy.
    set (b0 := WithProject _ (WithFlag _ _ (Command _ _))) in *.
    set (ids := default [] collectionIDs) in *.
    assert (project b0 = handler_project base args) as Hpb.
    { unfold b0. apply project_WithProject_arg. unfold WithFlag.
      by destruct (nonempty database). }
    assert (format b0 = "json" ∧ boolFlags b0 = [] ∧
            components b0 = ["firestore"; "export"; uri]
            ∧ executor b0 = bs_Executor base ∧ arrayFlags b0 = ∅
            ∧ flags b0 = if nonempty database
                         then {["database" := database]} else ∅)
      as (Hfb & Hbb & Hcb & Heb & Harr & Hflags).
    { unfold b0, WithProject, WithFlag.
      destruct (nonempty (GetOptionalString _ "project" _)),
               (nonempty database); split_and!; try done;
        simpl; apply insert_empty. }
    set (b := foldl _ b0 ids) in *.
    destruct (foldl_WithArrayFlag_fields "collection-ids" ids b0)
      as (Hc & Hf & Hb & Hp & Hfm & He).
    fold b in Hc, Hf, Hb, Hp, Hfm, He.
    assert (BuildWith (range_flags rg (flags b))
                      (range_arrayFlags rg (arrayFlags b)) b
            = cmd_Args cmd) as Hargs.
    { destruct (range_visit_order rg b Hrg) as [Hfl Hal].
      assert (range_flags rg (flags b)
              = if nonempty database then [("database", database)] else [])
        as ->.
      { rewrite Hf, Hflags in Hfl |- *. destruct (nonempty database).
        - rewrite map_to_list_singleton in Hfl.
          by apply Permutation_singleton_r.
        - rewrite map_to_list_empty in Hfl. by apply Permutation_nil_r. }
      assert (range_arrayFlags rg (arrayFlags b)
              = if decide (filter (λ v, v ≠ "") ids = []) then []
                else [("collection-ids", filter (λ v, v ≠ "") ids)])
        as ->.
      { unfold b in Hal |- *.
        rewrite foldl_WithArrayFlag_arrayFlags, Harr in Hal |- *.
        destruct (decide _).
        - rewrite map_to_list_empty in Hal. by apply Permutation_nil_r.
        - rewrite lookup_empty, insert_empty in Hal |- *.
          rewrite map_to_list_singleton in Hal.
          by apply Permutation_singleton_r. }
      rewrite BuildWith_layout, Hc, Hb, Hcb, Hbb.
      rewrite (project_args_handler base args b ltac:(by rewrite Hp)).
      unfold format_args. rewrite Hfm, Hfb. subst cmd. simpl.
      do 3 f_equal.
      destruct (nonempty database); simpl;
        destruct (decide _) as [->|_]; simpl; rewrite ?app_nil_r; done. }
    assert (executor b = bs_Executor base) as Heb' by by rewrite He.
    destruct (Execute_outcome run _ _ _ log base _ Heb' Hargs)
      as (r & Hex & Herr & _).
    rewrite Hex. change (gcloud base (cmd_Args cmd)) with cmd in *.
    unfold ret. eexists. split; [reflexivity|].
    rewrite show_json_IsError, <-Herr.
    destruct (r.2); split; congruence.
Qed.

(** X25 at arguments with a prefix, an empty database and three
    collection IDs, one of them empty. *)
Lemma X25_firestore_export_witness :
  let run := λ _ : Cmd, mkOutput "{}" "" None in
  let rg := mkRange map_to_list map_to_list in
  let base := NewBaseService (mkConfig "" "" "" "gcloud" 60) in
  let args : gmap string any :=
    <["output_uri_prefix" := AnyString "gs://bucket/dump"]>
      (<["database" := AnyString ""]>
         (<["collection_ids" :=
              AnySlice [AnyString "users"; AnyString ""; AnyBool true;
                        AnyString "orders"]]> ∅)) in
  args !! "output_uri_prefix" = Some (AnyString "gs://bucket/dump") ∧
  "gs://bucket/dump" ≠ "" ∧ every_entry_once rg ∧
  ∃ result,
    firestore_export run (λ _, None) rg base args []
    = ((result, None),
       [] ++ [gcloud base ["firestore"; "export"; "gs://bucket/dump";
                           "--collection-ids=users"; "--collection-ids=orders";
                           "--format=json"]]).
Proof.
  intros run rg base args.
  assert (args !! "output_uri_prefix" = Some (AnyString "gs://bucket/dump"))
    as Hi by reflexivity.
  assert ("gs://bucket/dump" ≠ "") as Hine by discriminate.
  assert (every_entry_once rg) as Hrg by (split; intros m; reflexivity).
  destruct (X25_firestore_export run (λ _, None) rg base args []) as (_ & H).
  destruct (H "gs://bucket/dump" Hi Hine Hrg) as (result & Hr & _).
  split_and!; [exact Hi|exact Hine|exact Hrg|].
  exists result. exact Hr.
Defined.
